(** * The per-user rate limiter of [tg_bot/modules/helper_funcs/decorators.py]

    A shallow embedding of [rate_limit] and of the [wrapper] it builds
    (decorators.py, lines 10-50), followed by the properties of the
    sliding-window limiter that the specification states about it.

    What the specification calls [try_acquire] is the prune, the check and
    the append of [wrapper] (lines 35-45); the code fuses it with the call
    of the decorated function (line 46).

    Conventions of the model.
    - The clock reading [time.time()] is an input of every call; time is an
      exact number of ticks ([Z]), so rounding of binary floating point is
      outside the model.
    - [message_history] is a [gmap] from user ids to lists of timestamps, in
      insertion order, exactly as the Python dict of lists.
    - The two visible effects of [wrapper], the [log.debug] line of a denial
      and the invocation of the decorated function, are recorded in a trace.
    - [functools.lru_cache(maxsize=1024)] is modelled as a most-recently-used
      first association list that never grows past [maxsize];
      an exception leaves the cache as it was. *)

From Stdlib Require Import ZArith Sorted.
From stdpp Require Import gmap list strings.

Open Scope Z_scope.

(** ** Python values, exceptions, outcomes *)

Inductive PyValue : Type :=
  | PyNone
  | PyBool (b : bool).

Inductive PyExn : Type :=
  | AttributeError        (* [update.effective_user] is [None] *)
  | HandlerError          (* whatever the decorated function raised *)
  | InvalidConfiguration. (* named by the specification; the code never raises it *)

Inductive Outcome (A : Type) : Type :=
  | Return (v : A)
  | Raise (e : PyExn).
Arguments Return {A} v.
Arguments Raise {A} e.

(** ** The objects handed to a handler *)

(** Of an [Update] the wrapper reads [effective_user.id]; the cache compares
    updates with [==], which the framework defines on [update_id]. *)
Record Update : Type := {
  update_id : Z;
  effective_user : option Z
}.

(** A [CallbackContext] has no [__eq__]: it is compared by object identity. *)
Record CallbackContext : Type := {
  context_id : Z
}.

(** The decorated function: its [__name__], and whether a call of it raises. *)
Record Handler : Type := {
  handler_name : string;
  handler_raises : Update -> CallbackContext -> bool
}.

(** ** Effects *)

Inductive Event : Type :=
  | LogDebug (user_id : Z) (allowed window : Z) (name : string)
  | Called (name : string) (u : Update) (c : CallbackContext) (at_time : Z).

(** The module-level state: the one dict [message_history] (line 10), and
    the trace of effects. *)
Record World : Type := {
  message_history : gmap Z (list Z);
  trace : list Event
}.

Definition initial_world : World :=
  {| message_history := ∅; trace := [] |}.

(** The list stored for a user, [[]] when the user has no entry. *)
Definition history (w : World) (user_id : Z) : list Z :=
  default [] (message_history w !! user_id).

(** ** [rate_limit] *)

(** What [wrapper] closes over. *)
Record Limiter : Type := {
  messages_per_window : Z;
  window_seconds : Z;
  func : Handler
}.

(** Lines 12-50: [rate_limit] builds the decorator and returns it; there is
    no check of its arguments. *)
Definition rate_limit (messages_per_window window_seconds : Z)
  : Outcome (Handler -> Limiter) :=
  Return (fun f => {| messages_per_window := messages_per_window;
                      window_seconds := window_seconds;
                      func := f |}).

(** Line 39: [[t for t in message_history[user_id]
               if current_time - t <= window_seconds]]. *)
Definition prune (window_seconds current_time : Z) (h : list Z) : list Z :=
  filter (fun t => current_time - t <= window_seconds) h.

(** Lines 32-46, the function under the cache. *)
Definition wrapper_body (L : Limiter) (update : Update) (context : CallbackContext)
    (current_time : Z) (w : World) : Outcome PyValue * World :=
  match effective_user update with
  | None => (Raise AttributeError, w)
  | Some user_id =>
      (* lines 35-36 *)
      let mh0 := match message_history w !! user_id with
                 | None => <[user_id := []]> (message_history w)
                 | Some _ => message_history w
                 end in
      (* line 39 *)
      let kept := prune (window_seconds L) current_time (default [] (mh0 !! user_id)) in
      let mh1 := <[user_id := kept]> mh0 in
      (* line 41 *)
      if bool_decide (Z.of_nat (length kept) >= messages_per_window L) then
        (Return PyNone,
         {| message_history := mh1;
            trace := trace w ++ [LogDebug user_id (messages_per_window L)
                                   (window_seconds L) (handler_name (func L))] |})
      else
        (* line 45 *)
        let mh2 := <[user_id := kept ++ [current_time]]> mh1 in
        let w2 := {| message_history := mh2;
                     trace := trace w ++ [Called (handler_name (func L)) update
                                            context current_time] |} in
        (* line 46 *)
        if handler_raises (func L) update context
        then (Raise HandlerError, w2)
        else (Return PyNone, w2)
  end.

(** ** [lru_cache(maxsize=1024)] *)

Definition maxsize : nat := 1024.

Definition CacheKey : Type := Z * Z.

Definition make_key (update : Update) (context : CallbackContext) : CacheKey :=
  (update_id update, context_id context).

(** Most recently used entry first. *)
Fixpoint cache_get (k : CacheKey) (cache : list (CacheKey * PyValue)) : option PyValue :=
  match cache with
  | [] => None
  | (k', v) :: rest => if decide (k = k') then Some v else cache_get k rest
  end.

Definition cache_touch (k : CacheKey) (v : PyValue) (cache : list (CacheKey * PyValue))
  : list (CacheKey * PyValue) :=
  (k, v) :: filter (fun e => e.1 <> k) cache.

Definition cache_put (k : CacheKey) (v : PyValue) (cache : list (CacheKey * PyValue))
  : list (CacheKey * PyValue) :=
  take maxsize ((k, v) :: cache).

(** Lines 30-31: the wrapper a decorated function is replaced by. Its state
    is its own cache and the shared world. *)
Definition wrapper (L : Limiter) (update : Update) (context : CallbackContext)
    (current_time : Z) (st : list (CacheKey * PyValue) * World)
  : Outcome PyValue * (list (CacheKey * PyValue) * World) :=
  let k := make_key update context in
  match cache_get k st.1 with
  | Some v => (Return v, (cache_touch k v st.1, st.2))
  | None =>
      match wrapper_body L update context current_time st.2 with
      | (Return v, w') => (Return v, (cache_put k v st.1, w'))
      | (Raise e, w') => (Raise e, (st.1, w'))
      end
  end.

(** ** Runs *)

(** One dispatch of an update to the wrapper, with the clock value it reads. *)
Record Dispatch : Type := {
  d_update : Update;
  d_context : CallbackContext;
  d_time : Z
}.

Definition step (L : Limiter) (st : list (CacheKey * PyValue) * World) (d : Dispatch)
  : list (CacheKey * PyValue) * World :=
  (wrapper L (d_update d) (d_context d) (d_time d) st).2.

Definition run (L : Limiter) (ds : list Dispatch) (st : list (CacheKey * PyValue) * World)
  : list (CacheKey * PyValue) * World :=
  foldl (step L) st ds.

Definition initial_state : list (CacheKey * PyValue) * World := ([], initial_world).

(** The timestamps of the admitted actions of a user: the calls of the
    decorated function that the trace records for that user. *)
Definition admitted_at (user_id : Z) (e : Event) : option Z :=
  match e with
  | Called _ u _ t => if decide (effective_user u = Some user_id) then Some t else None
  | LogDebug _ _ _ _ => None
  end.

Definition admitted_times (user_id : Z) (tr : list Event) : list Z :=
  omap (admitted_at user_id) tr.

(** How many of the timestamps [l] lie in the trailing window [(t - ws, t]]. *)
Definition count_in_window (ws t : Z) (l : list Z) : Z :=
  Z.of_nat (length (filter (fun s => t - ws < s /\ s <= t) l)).

(** What a single call of the body did. *)
Definition admitted_step (L : Limiter) (update : Update) (context : CallbackContext)
    (current_time : Z) (w w' : World) : Prop :=
  exists user_id,
    effective_user update = Some user_id /\
    message_history w' !! user_id
      = Some (prune (window_seconds L) current_time (history w user_id) ++ [current_time]) /\
    trace w' = trace w ++ [Called (handler_name (func L)) update context current_time].

Definition denied_step (L : Limiter) (update : Update) (context : CallbackContext)
    (current_time : Z) (w w' : World) : Prop :=
  exists user_id,
    effective_user update = Some user_id /\
    message_history w' !! user_id
      = Some (prune (window_seconds L) current_time (history w user_id)) /\
    trace w' = trace w ++ [LogDebug user_id (messages_per_window L)
                             (window_seconds L) (handler_name (func L))].

(** ** Invariants of a run *)

(** The stored history agrees with the admitted timestamps on everything
    that is not older than the window of the latest clock reading [T]. *)
Definition tracks (ws T : Z) (w : World) : Prop :=
  forall user_id b, T - ws <= b ->
    filter (fun s => b <= s) (admitted_times user_id (trace w))
    = filter (fun s => b <= s) (history w user_id).

(** No trailing window holds more than [cap] admitted timestamps. *)
Definition bounded (ws cap : Z) (w : World) : Prop :=
  forall user_id t, count_in_window ws t (admitted_times user_id (trace w)) <= cap.

(** Clock readings of a run never go back. *)
Definition nondecreasing (ts : list Z) : Prop := Sorted Z.le ts.

(** Every stored history is empty or holds at most [cap] timestamps. *)
Definition within_capacity (cap : Z) (w : World) : Prop :=
  forall user_id, history w user_id = [] \/ Z.of_nat (length (history w user_id)) <= cap.

(** The cache only ever holds [None], the one value the body returns. *)
Definition cache_values_none (cache : list (CacheKey * PyValue)) : Prop :=
  Forall (fun e => e.2 = PyNone) cache.

(** ** Scenario of the specification: capacity 3, window 60 *)

Definition noop : Handler :=
  {| handler_name := "my_function"; handler_raises := fun _ _ => false |}.

Definition limiter_3_60 : Limiter :=
  {| messages_per_window := 3; window_seconds := 60; func := noop |}.

Definition upd (n user : Z) : Update :=
  {| update_id := n; effective_user := Some user |}.

Definition ctx (n : Z) : CallbackContext := {| context_id := n |}.

Definition at_ (n user t : Z) : Dispatch :=
  {| d_update := upd n user; d_context := ctx n; d_time := t |}.

Definition limiter_1_60 : Limiter :=
  {| messages_per_window := 1; window_seconds := 60; func := noop |}.

Definition other_handler : Handler :=
  {| handler_name := "other_function"; handler_raises := fun _ _ => false |}.

Definition limiter_1_10 : Limiter :=
  {| messages_per_window := 1; window_seconds := 10; func := other_handler |}.

(** The world after user 7 was admitted once, at time 0. *)
Definition world_after_0 : World :=
  {| message_history := {[ 7 := [0] ]};
     trace := [Called "my_function" (upd 1 7) (ctx 1) 0] |}.

(** Two decorated functions and one user: [my_function] (3 per 60) is
    called at 0, 1, 2, then [other_function] (1 per 10) at 20, then
    [my_function] at 21. *)
Definition two_functions_world : World :=
  let w1 := (wrapper_body limiter_3_60 (upd 1 7) (ctx 1) 0 initial_world).2 in
  let w2 := (wrapper_body limiter_3_60 (upd 2 7) (ctx 2) 1 w1).2 in
  let w3 := (wrapper_body limiter_3_60 (upd 3 7) (ctx 3) 2 w2).2 in
  let w4 := (wrapper_body limiter_1_10 (upd 4 7) (ctx 4) 20 w3).2 in
  (wrapper_body limiter_3_60 (upd 5 7) (ctx 5) 21 w4).2.

(** ** [KigyoTelegramHandler]: registration of handlers (lines 52-151) *)

(** What a decorator is applied to: a plain function, or the wrapper that
    [rate_limit] made of one. *)
Inductive Callback : Type :=
  | Undecorated (f : Handler)
  | RateLimited (L : Limiter).

(** [func.__name__]: the cached wrapper of line 31 carries the name of the
    inner [def wrapper]. *)
Definition callback_name (cb : Callback) : string :=
  match cb with
  | Undecorated f => handler_name f
  | RateLimited _ => "wrapper"
  end.

(** Filters, as the objects the framework builds: [a & b] is a merged
    filter, [~a] an inverted one. *)
Inductive Filter : Type :=
  | BaseFilter (name : string)
  | EditedMessage               (* [Filters.update.edited_message] *)
  | MergedAnd (a b : Filter)
  | Inverted (a : Filter).

(** Whether a filter lets an update through, given what the caller's own
    filters do ([base]) and which updates are edited messages. *)
Fixpoint filter_accepts (base : string -> Update -> bool) (is_edited : Update -> bool)
    (f : Filter) (u : Update) : bool :=
  match f with
  | BaseFilter name => base name u
  | EditedMessage => is_edited u
  | MergedAnd a b => filter_accepts base is_edited a u && filter_accepts base is_edited b u
  | Inverted a => negb (filter_accepts base is_edited a u)
  end.

(** The handler objects the four decorators construct, with the arguments
    they pass; [pass_chat_data] is [None] where the call does not pass it. *)
Inductive HandlerObj : Type :=
  | DisableAbleCommandHandler (command : string) (callback : Callback) (filters : Filter)
      (run_async pass_args admin_ok : bool) (pass_chat_data : option bool)
  | CommandHandler (command : string) (callback : Callback) (filters : Filter)
      (run_async pass_args : bool) (pass_chat_data : option bool)
  | DisableAbleMessageHandler (pattern : Filter) (callback : Callback)
      (friendly : option string) (run_async : bool)
  | MessageHandler (pattern : Filter) (callback : Callback) (run_async : bool)
  | CallbackQueryHandler (pattern : option string) (callback : Callback) (run_async : bool)
  | InlineQueryHandler (pattern : option string) (callback : Callback)
      (run_async pass_user_data pass_chat_data : bool) (chat_types : option (list string)).

Definition handler_callback (h : HandlerObj) : Callback :=
  match h with
  | DisableAbleCommandHandler _ cb _ _ _ _ _ => cb
  | CommandHandler _ cb _ _ _ _ => cb
  | DisableAbleMessageHandler _ cb _ _ => cb
  | MessageHandler _ cb _ => cb
  | CallbackQueryHandler _ cb _ => cb
  | InlineQueryHandler _ cb _ _ _ _ => cb
  end.

(** The [filters] (or pattern) argument the handler was constructed with. *)
Definition handler_filter (h : HandlerObj) : option Filter :=
  match h with
  | DisableAbleCommandHandler _ _ f _ _ _ _ => Some f
  | CommandHandler _ _ f _ _ _ => Some f
  | DisableAbleMessageHandler f _ _ _ => Some f
  | MessageHandler f _ _ => Some f
  | CallbackQueryHandler _ _ _ => None
  | InlineQueryHandler _ _ _ _ _ _ => None
  end.

Definition handler_pass_chat_data (h : HandlerObj) : option bool :=
  match h with
  | DisableAbleCommandHandler _ _ _ _ _ _ p => p
  | CommandHandler _ _ _ _ _ p => p
  | InlineQueryHandler _ _ _ _ p _ => Some p
  | _ => None
  end.

(** The lines the decorators log. The group is [None] in the lines that do
    not mention one. *)
Inductive LoadedLine : Type :=
  | KIGCMD (command : string) (name : string) (group : option (option Z))
  | KIGMSG (pattern : Filter) (name : string) (group : option (option Z))
  | KIGCALLBACK (pattern : option string) (name : string)
  | KIGINLINE (pattern : option string) (name : string)
      (pass_user_data pass_chat_data : bool) (chat_types : option (list string)).

(** The dispatcher as the decorators see it: the handlers added so far, in
    order, each with the group argument of its [add_handler] call ([None]
    when the call passes no group, [Some g] when it passes the
    [Optional[int]] value [g]); and the lines logged. *)
Record Registry : Type := {
  handlers : list (HandlerObj * option (option Z));
  loaded : list LoadedLine
}.

(** Constructing a handler and adding it either succeeds or raises
    [TypeError]; which, is the framework's business ([accepted]). A call
    that raises leaves the dispatcher as it was. *)
Definition add_handler (accepted : HandlerObj -> option (option Z) -> bool)
    (h : HandlerObj) (group : option (option Z)) (r : Registry) : option Registry :=
  if accepted h group
  then Some {| handlers := handlers r ++ [(h, group)]; loaded := loaded r |}
  else None.

Definition log_debug (line : LoadedLine) (r : Registry) : Registry :=
  {| handlers := handlers r; loaded := loaded r ++ [line] |}.

(** Lines 56-92. The result is [None] when the [TypeError] of the second
    attempt leaves [_command]. *)
Definition command (accepted : HandlerObj -> option (option Z) -> bool)
    (command : string) (filters : option Filter)
    (admin_ok pass_args pass_chat_data run_async can_disable : bool) (group : option Z)
    (func : Callback) (r : Registry) : option (Callback * Registry) :=
  let filters := match filters with
                 | Some f => MergedAnd f (Inverted EditedMessage)
                 | None => Inverted EditedMessage
                 end in
  let attempt :=
    if can_disable
    then add_handler accepted
           (DisableAbleCommandHandler command func filters run_async pass_args admin_ok None)
           (Some group) r
    else add_handler accepted
           (CommandHandler command func filters run_async pass_args None) (Some group) r in
  match attempt with
  | Some r1 => Some (func, log_debug (KIGCMD command (callback_name func) (Some group)) r1)
  | None =>
      let retry :=
        if can_disable
        then add_handler accepted
               (DisableAbleCommandHandler command func filters run_async pass_args admin_ok
                  (Some pass_chat_data)) None r
        else add_handler accepted
               (CommandHandler command func filters run_async pass_args
                  (Some pass_chat_data)) None r in
      match retry with
      | Some r2 => Some (func, log_debug (KIGCMD command (callback_name func) None) r2)
      | None => None
      end
  end.

(** Lines 94-124. *)
Definition message (accepted : HandlerObj -> option (option Z) -> bool)
    (pattern : option Filter) (can_disable run_async : bool) (group : option Z)
    (friendly : option string) (func : Callback) (r : Registry)
  : option (Callback * Registry) :=
  let pattern := match pattern with
                 | Some f => MergedAnd f (Inverted EditedMessage)
                 | None => Inverted EditedMessage
                 end in
  let attempt :=
    if can_disable
    then add_handler accepted (DisableAbleMessageHandler pattern func friendly run_async)
           (Some group) r
    else add_handler accepted (MessageHandler pattern func run_async) (Some group) r in
  match attempt with
  | Some r1 => Some (func, log_debug (KIGMSG pattern (callback_name func) (Some group)) r1)
  | None =>
      let retry :=
        if can_disable
        then add_handler accepted (DisableAbleMessageHandler pattern func friendly run_async)
               None r
        else add_handler accepted (MessageHandler pattern func run_async) None r in
      match retry with
      | Some r2 => Some (func, log_debug (KIGMSG pattern (callback_name func) None) r2)
      | None => None
      end
  end.

(** Lines 126-132: no second attempt. *)
Definition callbackquery (accepted : HandlerObj -> option (option Z) -> bool)
    (pattern : option string) (run_async : bool) (func : Callback) (r : Registry)
  : option (Callback * Registry) :=
  match add_handler accepted (CallbackQueryHandler pattern func run_async) None r with
  | Some r1 => Some (func, log_debug (KIGCALLBACK pattern (callback_name func)) r1)
  | None => None
  end.

(** Lines 134-145. *)
Definition inlinequery (accepted : HandlerObj -> option (option Z) -> bool)
    (pattern : option string) (run_async pass_user_data pass_chat_data : bool)
    (chat_types : option (list string)) (func : Callback) (r : Registry)
  : option (Callback * Registry) :=
  match add_handler accepted
          (InlineQueryHandler pattern func run_async pass_user_data pass_chat_data chat_types)
          None r with
  | Some r1 => Some (func, log_debug (KIGINLINE pattern (callback_name func)
                                        pass_user_data pass_chat_data chat_types) r1)
  | None => None
  end.

(** A dispatcher that wants an integer group when a group is passed, and
    takes everything else. *)
Definition int_group_only (h : HandlerObj) (group : option (option Z)) : bool :=
  match group with
  | Some None => false
  | _ => true
  end.

Definition empty_registry : Registry := {| handlers := []; loaded := [] |}.

(** ** Several decorated functions in one process *)

(** The decorated functions are numbered; [fs i] is what the wrapper of
    function [i] closes over. Every wrapper has a cache of its own
    (line 30 runs once per decorated function); all of them read and write
    the one [message_history]. A call names the function it goes to. *)
Definition step_shared (fs : nat -> Limiter)
    (st : gmap nat (list (CacheKey * PyValue)) * World) (call : nat * Dispatch)
  : gmap nat (list (CacheKey * PyValue)) * World :=
  let r := wrapper (fs call.1) (d_update call.2) (d_context call.2) (d_time call.2)
             (default [] (st.1 !! call.1), st.2) in
  (<[call.1 := r.2.1]> st.1, r.2.2).

Definition run_shared (fs : nat -> Limiter) (calls : list (nat * Dispatch))
    (st : gmap nat (list (CacheKey * PyValue)) * World)
  : gmap nat (list (CacheKey * PyValue)) * World :=
  foldl (step_shared fs) st calls.

Definition initial_shared : gmap nat (list (CacheKey * PyValue)) * World :=
  (∅, initial_world).

(** The timestamps at which the function called [name] was run for a user. *)
Definition called_at (name : string) (user_id : Z) (e : Event) : option Z :=
  match e with
  | Called n u _ t =>
      if decide (n = name /\ effective_user u = Some user_id) then Some t else None
  | LogDebug _ _ _ _ => None
  end.

Definition called_times (name : string) (user_id : Z) (tr : list Event) : list Z :=
  omap (called_at name user_id) tr.

(** [my_function], 3 per 60 seconds, and [other_function], 1 per 10. *)
Definition two_functions (i : nat) : Limiter :=
  match i with
  | O => limiter_3_60
  | S _ => limiter_1_10
  end.

Definition two_functions_calls : list (nat * Dispatch) :=
  [(0%nat, at_ 1 7 0); (0%nat, at_ 2 7 1); (0%nat, at_ 3 7 2);
   (1%nat, at_ 4 7 20); (0%nat, at_ 5 7 21)].

(** ** Calls whose steps interleave *)

(** The body of [wrapper] reaches the shared dict five times; between any
    two of them another thread may run ([run_async=True] hands the handler
    to a pool, and the body takes no lock). The calls considered are calls
    of the body, for updates the cache has not seen. *)
Inductive Pc : Type :=
  | AtEntry                    (* lines 35-36: the membership test and [[]] *)
  | AtPrune                    (* line 39: the comprehension reads the list *)
  | AtStore (kept : list Z)    (* line 39: the new list is stored *)
  | AtCheck                    (* line 41: [len] of the stored list *)
  | AtAppend                   (* line 45 *)
  | AtCall                     (* line 46 *)
  | Finished.

Record Thread : Type := {
  th_limiter : Limiter;
  th_update : Update;
  th_context : CallbackContext;
  th_time : Z;
  th_pc : Pc
}.

Definition at_pc (th : Thread) (pc : Pc) : Thread :=
  {| th_limiter := th_limiter th; th_update := th_update th;
     th_context := th_context th; th_time := th_time th; th_pc := pc |}.

(** A call that has read its user and the clock (lines 32-33). *)
Definition spawn (L : Limiter) (d : Dispatch) : Thread :=
  {| th_limiter := L; th_update := d_update d; th_context := d_context d;
     th_time := d_time d; th_pc := AtEntry |}.

(** One step of one call. *)
Definition thread_step (th : Thread) (w : World) : Thread * World :=
  let L := th_limiter th in
  match effective_user (th_update th) with
  | None => (at_pc th Finished, w)
  | Some user_id =>
      match th_pc th with
      | AtEntry =>
          (at_pc th AtPrune,
           {| message_history :=
                match message_history w !! user_id with
                | None => <[user_id := []]> (message_history w)
                | Some _ => message_history w
                end;
              trace := trace w |})
      | AtPrune =>
          (at_pc th (AtStore (prune (window_seconds L) (th_time th) (history w user_id))), w)
      | AtStore kept =>
          (at_pc th AtCheck,
           {| message_history := <[user_id := kept]> (message_history w);
              trace := trace w |})
      | AtCheck =>
          if bool_decide (Z.of_nat (length (history w user_id)) >= messages_per_window L)
          then (at_pc th Finished,
                {| message_history := message_history w;
                   trace := trace w ++ [LogDebug user_id (messages_per_window L)
                                          (window_seconds L) (handler_name (func L))] |})
          else (at_pc th AtAppend, w)
      | AtAppend =>
          (at_pc th AtCall,
           {| message_history :=
                <[user_id := history w user_id ++ [th_time th]]> (message_history w);
              trace := trace w |})
      | AtCall =>
          (at_pc th Finished,
           {| message_history := message_history w;
              trace := trace w ++ [Called (handler_name (func L)) (th_update th)
                                     (th_context th) (th_time th)] |})
      | Finished => (th, w)
      end
  end.

(** A schedule names, step by step, the thread that runs next. *)
Definition sched_step (st : list Thread * World) (i : nat) : list Thread * World :=
  match st.1 !! i with
  | None => st
  | Some th => (<[i := (thread_step th st.2).1]> st.1, (thread_step th st.2).2)
  end.

Definition run_schedule (sched : list nat) (st : list Thread * World)
  : list Thread * World :=
  foldl sched_step st sched.

(** The schedule in which the calls run one after another, each to its end
    (six steps at most). *)
Definition serial (first n : nat) : list nat :=
  flat_map (fun i => replicate 6 i) (seq first n).

(** [n] steps of one thread with nothing in between. *)
Fixpoint thread_steps (n : nat) (th : Thread) (w : World) : Thread * World :=
  match n with
  | O => (th, w)
  | S n => let '(th', w') := thread_step th w in thread_steps n th' w'
  end.

(** The bodies of a list of calls, one after another. *)
Definition run_bodies (L : Limiter) (ds : list Dispatch) (w : World) : World :=
  foldl (fun w d => (wrapper_body L (d_update d) (d_context d) (d_time d) w).2) w ds.

(** Every stored history is in non-decreasing order and holds no timestamp
    later than the clock reading [T]. *)
Definition chronological (T : Z) (w : World) : Prop :=
  forall user_id,
    StronglySorted Z.le (history w user_id) /\ Forall (fun t => t <= T) (history w user_id).

(** A decorated function that raises, a limiter whose window is negative,
    an update that has no user. *)
Definition failing : Handler :=
  {| handler_name := "failing_function"; handler_raises := fun _ _ => true |}.

Definition limiter_failing : Limiter :=
  {| messages_per_window := 3; window_seconds := 60; func := failing |}.

Definition limiter_negative_window : Limiter :=
  {| messages_per_window := 1; window_seconds := -5; func := noop |}.

Definition no_user (n : Z) : Update :=
  {| update_id := n; effective_user := None |}.

Example scenario_0_1_2 :
  history (run limiter_3_60 [at_ 1 7 0; at_ 2 7 1; at_ 3 7 2] initial_state).2 7 = [0; 1; 2].
Proof. vm_compute. reflexivity. Qed.

Example scenario_3_denied :
  history (run limiter_3_60 [at_ 1 7 0; at_ 2 7 1; at_ 3 7 2; at_ 4 7 3] initial_state).2 7
  = [0; 1; 2].
Proof. vm_compute. reflexivity. Qed.

Example scenario_61_admitted :
  history (run limiter_3_60 [at_ 1 7 0; at_ 2 7 1; at_ 3 7 2; at_ 4 7 3; at_ 5 7 61]
             initial_state).2 7
  = [1; 2; 61].
Proof. vm_compute. reflexivity. Qed.

Example scenario_60_still_denied :
  history (run limiter_3_60 [at_ 1 7 0; at_ 2 7 1; at_ 3 7 2; at_ 4 7 3; at_ 5 7 60]
             initial_state).2 7
  = [0; 1; 2].
Proof. vm_compute. reflexivity. Qed.

(** ** The body, case by case *)

Section Body.
Context (L : Limiter).

Lemma prune_as_lower_bound now (h : list Z) :
  prune (window_seconds L) now h = filter (fun t => now - window_seconds L <= t) h.
Proof. unfold prune. apply list_filter_iff. intros x. lia. Qed.

Lemma prune_elem now (h : list Z) t :
  t ∈ prune (window_seconds L) now h <-> t ∈ h /\ now - window_seconds L <= t.
Proof. unfold prune. rewrite list_elem_of_filter. split; intros []; split; (done || lia). Qed.

Lemma prune_idemp now (h : list Z) :
  prune (window_seconds L) now (prune (window_seconds L) now h)
  = prune (window_seconds L) now h.
Proof. unfold prune. apply list_filter_filter_l. done. Qed.

Lemma wrapper_body_no_user u c now w :
  effective_user u = None ->
  wrapper_body L u c now w = (Raise AttributeError, w).
Proof. intros H. unfold wrapper_body. by rewrite H. Qed.

Lemma wrapper_body_denied u c now w user_id :
  effective_user u = Some user_id ->
  messages_per_window L <= Z.of_nat (length (prune (window_seconds L) now (history w user_id))) ->
  wrapper_body L u c now w
  = (Return PyNone,
     {| message_history :=
          <[user_id := prune (window_seconds L) now (history w user_id)]> (message_history w);
        trace := trace w ++ [LogDebug user_id (messages_per_window L) (window_seconds L)
                               (handler_name (func L))] |}).
Proof.
  intros Hu Hfull. unfold wrapper_body, history in *. rewrite Hu.
  destruct (message_history w !! user_id) as [h|] eqn:Hh; simpl in *.
  - rewrite Hh. simpl. rewrite bool_decide_eq_true_2 by lia. done.
  - rewrite lookup_insert_eq. simpl. rewrite bool_decide_eq_true_2 by lia.
    by rewrite insert_insert_eq.
Qed.

Lemma wrapper_body_admitted u c now w user_id :
  effective_user u = Some user_id ->
  Z.of_nat (length (prune (window_seconds L) now (history w user_id))) < messages_per_window L ->
  wrapper_body L u c now w
  = (if handler_raises (func L) u c then Raise HandlerError else Return PyNone,
     {| message_history :=
          <[user_id := prune (window_seconds L) now (history w user_id) ++ [now]]>
            (message_history w);
        trace := trace w ++ [Called (handler_name (func L)) u c now] |}).
Proof.
  intros Hu Hroom. unfold wrapper_body, history in *. rewrite Hu.
  destruct (message_history w !! user_id) as [h|] eqn:Hh; simpl in *.
  - rewrite Hh. simpl. rewrite bool_decide_eq_false_2 by lia.
    rewrite insert_insert_eq. by destruct (handler_raises _ _ _).
  - rewrite lookup_insert_eq. simpl. rewrite bool_decide_eq_false_2 by lia.
    rewrite !insert_insert_eq. by destruct (handler_raises _ _ _).
Qed.

(** Every call of the body is one of the three cases. *)
Lemma wrapper_body_cases u c now w :
  (effective_user u = None /\ wrapper_body L u c now w = (Raise AttributeError, w))
  \/ (exists user_id, effective_user u = Some user_id /\
        messages_per_window L
          <= Z.of_nat (length (prune (window_seconds L) now (history w user_id))) /\
        denied_step L u c now w (wrapper_body L u c now w).2)
  \/ (exists user_id, effective_user u = Some user_id /\
        Z.of_nat (length (prune (window_seconds L) now (history w user_id)))
          < messages_per_window L /\
        admitted_step L u c now w (wrapper_body L u c now w).2).
Proof.
  destruct (effective_user u) as [user_id|] eqn:Hu.
  - destruct (decide (messages_per_window L
        <= Z.of_nat (length (prune (window_seconds L) now (history w user_id))))) as [Hfull|Hroom].
    + right; left. exists user_id. split; [done|]. split; [done|].
      rewrite (wrapper_body_denied _ _ _ _ _ Hu Hfull). exists user_id. simpl.
      by rewrite lookup_insert_eq.
    + right; right. exists user_id. split; [done|]. split; [lia|].
      rewrite (wrapper_body_admitted u c now w user_id Hu) by lia. exists user_id. simpl.
      by rewrite lookup_insert_eq.
  - left. split; [done|]. by apply wrapper_body_no_user.
Qed.
End Body.

(** ** The trace and the history under one call *)

Lemma admitted_times_log user_id tr uid' a ws n :
  admitted_times user_id (tr ++ [LogDebug uid' a ws n]) = admitted_times user_id tr.
Proof. unfold admitted_times. rewrite omap_app. simpl. by rewrite app_nil_r. Qed.

Lemma admitted_times_called user_id tr n u c t :
  effective_user u = Some user_id ->
  admitted_times user_id (tr ++ [Called n u c t]) = admitted_times user_id tr ++ [t].
Proof.
  intros Hu. unfold admitted_times. rewrite omap_app. simpl.
  by rewrite decide_True.
Qed.

Lemma admitted_times_called_other user_id tr n u c t :
  effective_user u <> Some user_id ->
  admitted_times user_id (tr ++ [Called n u c t]) = admitted_times user_id tr.
Proof.
  intros Hu. unfold admitted_times. rewrite omap_app. simpl.
  rewrite decide_False by done. by rewrite app_nil_r.
Qed.

Lemma history_insert w user_id l tr :
  history {| message_history := <[user_id := l]> (message_history w); trace := tr |} user_id = l.
Proof. unfold history. simpl. by rewrite lookup_insert_eq. Qed.

Lemma history_insert_ne w user_id other l tr :
  user_id <> other ->
  history {| message_history := <[user_id := l]> (message_history w); trace := tr |} other
  = history w other.
Proof. intros Hne. unfold history. simpl. by rewrite lookup_insert_ne. Qed.

Lemma count_in_window_app ws t l1 l2 :
  count_in_window ws t (l1 ++ l2) = count_in_window ws t l1 + count_in_window ws t l2.
Proof. unfold count_in_window. rewrite filter_app, length_app. lia. Qed.

Lemma count_in_window_singleton ws t s :
  count_in_window ws t [s] = if decide (t - ws < s /\ s <= t) then 1 else 0.
Proof.
  unfold count_in_window. rewrite filter_cons, filter_nil. by case_decide.
Qed.

Lemma count_in_window_le_recent ws t now (l : list Z) :
  now <= t ->
  count_in_window ws t l <= Z.of_nat (length (filter (fun s => now - ws <= s) l)).
Proof.
  intros Hle. unfold count_in_window.
  rewrite <- (list_filter_filter_l (fun s => t - ws < s /\ s <= t) (fun s => now - ws <= s))
    by (intros x; lia).
  pose proof (length_filter (fun s => t - ws < s /\ s <= t)
                (filter (fun s => now - ws <= s) l)).
  lia.
Qed.

Section Invariant.
Context (L : Limiter).
Let ws := window_seconds L.
Let cap := messages_per_window L.

Lemma tracks_initial T : tracks ws T initial_world.
Proof. intros user_id b _. done. Qed.

Lemma bounded_initial : 0 <= cap -> bounded ws cap initial_world.
Proof. intros Hcap user_id t. unfold count_in_window. simpl. lia. Qed.

Lemma tracks_mono T T' w : tracks ws T w -> T <= T' -> tracks ws T' w.
Proof. intros Hw Hle user_id b Hb. apply Hw. lia. Qed.

Lemma tracks_body T now u c w :
  tracks ws T w -> T <= now -> tracks ws now (wrapper_body L u c now w).2.
Proof.
  intros Hw Hle.
  destruct (effective_user u) as [uid|] eqn:Hu.
  2:{ rewrite wrapper_body_no_user by done. by eapply tracks_mono. }
  pose proof (Hw uid) as Huid.
  destruct (decide (cap <= Z.of_nat (length (prune ws now (history w uid))))) as [Hfull|Hroom].
  - rewrite (wrapper_body_denied L u c now w uid Hu Hfull). simpl.
    intros user_id b Hb. simpl. rewrite admitted_times_log.
    destruct (decide (uid = user_id)) as [<-|Hne].
    + rewrite history_insert. subst ws. rewrite prune_as_lower_bound.
      rewrite list_filter_filter_l by (intros x; lia). apply Huid. lia.
    + rewrite history_insert_ne by done. apply Hw. lia.
  - rewrite (wrapper_body_admitted L u c now w uid Hu) by (subst ws cap; lia). simpl.
    intros user_id b Hb. simpl.
    destruct (decide (uid = user_id)) as [<-|Hne].
    + rewrite history_insert, admitted_times_called by done.
      rewrite !filter_app. f_equal. subst ws. rewrite prune_as_lower_bound.
      rewrite list_filter_filter_l by (intros x; lia). apply Huid. lia.
    + rewrite history_insert_ne by done.
      rewrite admitted_times_called_other by congruence. apply Hw. lia.
Qed.

Lemma bounded_body T now u c w :
  tracks ws T w -> T <= now -> bounded ws cap w ->
  bounded ws cap (wrapper_body L u c now w).2.
Proof.
  intros Hw Hle Hb.
  destruct (effective_user u) as [uid|] eqn:Hu.
  2:{ by rewrite wrapper_body_no_user. }
  destruct (decide (cap <= Z.of_nat (length (prune ws now (history w uid))))) as [Hfull|Hroom].
  - rewrite (wrapper_body_denied L u c now w uid Hu Hfull). simpl.
    intros user_id t. simpl. rewrite admitted_times_log. apply Hb.
  - rewrite (wrapper_body_admitted L u c now w uid Hu) by (subst ws cap; lia). simpl.
    intros user_id t. simpl.
    destruct (decide (uid = user_id)) as [<-|Hne].
    2:{ rewrite admitted_times_called_other by congruence. apply Hb. }
    rewrite admitted_times_called by done. rewrite count_in_window_app.
    destruct (decide (t - ws < now /\ now <= t)) as [Hin|Hout].
    + pose proof (count_in_window_le_recent ws t now (admitted_times uid (trace w))
                    ltac:(lia)) as Hcnt.
      rewrite (Hw uid (now - ws)) in Hcnt by lia.
      subst ws. rewrite <- prune_as_lower_bound in Hcnt.
      rewrite count_in_window_singleton, decide_True by done. lia.
    + rewrite count_in_window_singleton, decide_False by done.
      pose proof (Hb uid t). lia.
Qed.

(** The world after a call of the cached wrapper: untouched on a hit, the
    body's otherwise. *)
Lemma wrapper_world u c now st :
  (wrapper L u c now st).2.2 = st.2
  \/ (wrapper L u c now st).2.2 = (wrapper_body L u c now st.2).2.
Proof.
  unfold wrapper. destruct (cache_get _ _); [by left|right].
  by destruct (wrapper_body L u c now st.2) as [[v|e] w'].
Qed.

Lemma tracks_step T st d :
  tracks ws T st.2 -> T <= d_time d -> tracks ws (d_time d) (step L st d).2.
Proof.
  intros Hw Hle. unfold step.
  destruct (wrapper_world (d_update d) (d_context d) (d_time d) st) as [-> | ->].
  - by eapply tracks_mono.
  - by eapply tracks_body.
Qed.

Lemma bounded_step T st d :
  tracks ws T st.2 -> T <= d_time d -> bounded ws cap st.2 -> bounded ws cap (step L st d).2.
Proof.
  intros Hw Hle Hb. unfold step.
  destruct (wrapper_world (d_update d) (d_context d) (d_time d) st) as [-> | ->].
  - done.
  - by eapply bounded_body.
Qed.

Lemma run_tracks ds : forall st T now,
  tracks ws T st.2 ->
  nondecreasing (T :: map d_time ds ++ [now]) ->
  tracks ws now (run L ds st).2.
Proof.
  induction ds as [|d ds IH]; intros st T now Hw Hs; simpl in *.
  - apply Sorted_inv in Hs as [_ Hhd]. apply HdRel_inv in Hhd. by eapply tracks_mono.
  - apply Sorted_inv in Hs as [Hs Hhd]. apply HdRel_inv in Hhd.
    eapply (IH _ (d_time d)); [|done]. by eapply tracks_step.
Qed.

Lemma run_bounded ds : forall st T,
  tracks ws T st.2 -> bounded ws cap st.2 ->
  nondecreasing (T :: map d_time ds) ->
  bounded ws cap (run L ds st).2.
Proof.
  induction ds as [|d ds IH]; intros st T Hw Hb Hs; simpl in *; [done|].
  apply Sorted_inv in Hs as [Hs Hhd]. apply HdRel_inv in Hhd.
  eapply (IH _ (d_time d)); [| |done].
  - by eapply tracks_step.
  - by eapply bounded_step.
Qed.
End Invariant.

Lemma nondecreasing_from_head (ts : list Z) :
  nondecreasing ts -> nondecreasing (hd 0 ts :: ts).
Proof.
  intros Hs. destruct ts as [|t ts]; simpl.
  - repeat constructor.
  - constructor; [done|]. constructor. lia.
Qed.

(** ** The lower bound of the window *)

(** C2, as stated, fails: with a window of 60 the timestamp 0 is exactly
    [now - window_seconds] at [now = 60]; the prune keeps it, and with
    capacity 1 it makes the call at 60 a denied one. *)
Lemma boundary_timestamp_not_removed :
  0 = 60 - window_seconds limiter_1_60 /\
  prune (window_seconds limiter_1_60) 60 (history world_after_0 7) = [0] /\
  denied_step limiter_1_60 (upd 2 7) (ctx 2) 60 world_after_0
    (wrapper_body limiter_1_60 (upd 2 7) (ctx 2) 60 world_after_0).2.
Proof.
  split; [reflexivity|]. split; [reflexivity|].
  exists 7. split; [reflexivity|]. split; reflexivity.
Qed.

(** C2, amended. The lower bound of the window is inclusive: a recorded
    timestamp exactly equal to [now - window_seconds] is kept by the prune
    step and counts toward the capacity check (so a limiter of capacity at
    most 1 denies the call); the prune removes exactly the timestamps
    strictly older than [now - window_seconds]. *)
Theorem boundary_timestamp_kept_and_counted (L : Limiter) (u : Update) (c : CallbackContext)
    (now : Z) (w : World) (user_id : Z) :
  effective_user u = Some user_id ->
  (now - window_seconds L) ∈ history w user_id ->
  (now - window_seconds L) ∈ history (wrapper_body L u c now w).2 user_id /\
  1 <= Z.of_nat (length (prune (window_seconds L) now (history w user_id))) /\
  (messages_per_window L <= 1 -> denied_step L u c now w (wrapper_body L u c now w).2) /\
  (forall t, t ∈ prune (window_seconds L) now (history w user_id)
             <-> t ∈ history w user_id /\ ~ t < now - window_seconds L).
Proof.
  intros Hu Hin.
  assert (Hkept : (now - window_seconds L) ∈ prune (window_seconds L) now (history w user_id)).
  { apply prune_elem. split; [done|lia]. }
  assert (Hlen : 1 <= Z.of_nat (length (prune (window_seconds L) now (history w user_id)))).
  { destruct (prune _ _ _); [by apply elem_of_nil in Hkept|]. simpl. lia. }
  split; [|split; [done|split]].
  - destruct (decide (messages_per_window L
        <= Z.of_nat (length (prune (window_seconds L) now (history w user_id))))) as [Hfull|Hroom].
    + rewrite (wrapper_body_denied L u c now w user_id Hu Hfull). simpl.
      by rewrite history_insert.
    + rewrite (wrapper_body_admitted L u c now w user_id Hu) by lia. simpl.
      rewrite history_insert. apply elem_of_app. by left.
  - intros Hcap.
    assert (Hfull : messages_per_window L
        <= Z.of_nat (length (prune (window_seconds L) now (history w user_id)))) by lia.
    rewrite (wrapper_body_denied L u c now w user_id Hu Hfull).
    exists user_id. simpl. by rewrite lookup_insert_eq.
  - intros t. rewrite prune_elem. split; intros []; split; (done || lia).
Qed.

Lemma boundary_timestamp_kept_and_counted_witness :
  (60 - window_seconds limiter_1_60)
    ∈ history (wrapper_body limiter_1_60 (upd 2 7) (ctx 2) 60 world_after_0).2 7 /\
  1 <= Z.of_nat (length (prune (window_seconds limiter_1_60) 60 (history world_after_0 7))) /\
  (messages_per_window limiter_1_60 <= 1 ->
   denied_step limiter_1_60 (upd 2 7) (ctx 2) 60 world_after_0
     (wrapper_body limiter_1_60 (upd 2 7) (ctx 2) 60 world_after_0).2) /\
  (forall t, t ∈ prune (window_seconds limiter_1_60) 60 (history world_after_0 7)
             <-> t ∈ history world_after_0 7 /\ ~ t < 60 - window_seconds limiter_1_60).
Proof.
  apply (boundary_timestamp_kept_and_counted limiter_1_60 (upd 2 7) (ctx 2) 60 world_after_0 7).
  - reflexivity.
  - vm_compute. apply list_elem_of_here.
Defined.

(** ** Construction *)

(** C3, as stated, fails: [rate_limit] called with a non-positive capacity
    or a non-positive window raises nothing, and the wrapper it yields runs. *)
Lemma rate_limit_accepts_nonpositive :
  rate_limit 0 60 <> Raise InvalidConfiguration /\
  rate_limit 3 0 <> Raise InvalidConfiguration /\
  rate_limit (-1) (-1) <> Raise InvalidConfiguration /\
  (exists decorator, rate_limit 0 60 = Return decorator /\
     wrapper (decorator noop) (upd 1 7) (ctx 1) 0 initial_state
     = (Return PyNone,
        ([((1, 1), PyNone)],
         {| message_history := {[ 7 := [] ]};
            trace := [LogDebug 7 0 60 "my_function"] |}))).
Proof.
  split; [done|]. split; [done|]. split; [done|].
  eexists. split; [reflexivity|]. reflexivity.
Qed.

(** C3, amended. [rate_limit] checks nothing: for every pair of arguments,
    non-positive ones included, it returns the decorator, whose limiter
    carries the arguments as given. With a non-positive capacity that
    limiter denies every call that has a user: no timestamp is recorded and
    the decorated function is not called. *)
Theorem rate_limit_never_fails (mpw ws : Z) :
  exists decorator,
    rate_limit mpw ws = Return decorator /\
    forall f,
      messages_per_window (decorator f) = mpw /\
      window_seconds (decorator f) = ws /\
      func (decorator f) = f /\
      (mpw <= 0 ->
       forall u c now w user_id,
         effective_user u = Some user_id ->
         denied_step (decorator f) u c now w (wrapper_body (decorator f) u c now w).2).
Proof.
  eexists. split; [reflexivity|]. intros f. simpl.
  split; [done|]. split; [done|]. split; [done|].
  intros Hcap u c now w user_id Hu.
  rewrite (wrapper_body_denied _ u c now w user_id Hu) by (simpl; lia).
  exists user_id. simpl. by rewrite lookup_insert_eq.
Qed.

(** ** What the wrapper returns, and what the cache holds *)

Lemma wrapper_body_returns_none (L : Limiter) u c now w v :
  (wrapper_body L u c now w).1 = Return v -> v = PyNone.
Proof.
  unfold wrapper_body. destruct (effective_user u); [|done].
  case_bool_decide; simpl; [congruence|].
  destruct (handler_raises _ _ _); simpl; congruence.
Qed.

Lemma cache_get_values_none cache k v :
  cache_values_none cache -> cache_get k cache = Some v -> v = PyNone.
Proof.
  unfold cache_values_none. induction 1 as [|[k' v'] rest Hv _ IH]; simpl; [done|].
  case_decide; [|done]. simpl in Hv. congruence.
Qed.

Lemma cache_values_none_wrapper (L : Limiter) u c now st :
  cache_values_none st.1 -> cache_values_none (wrapper L u c now st).2.1.
Proof.
  intros Hc. unfold wrapper.
  destruct (cache_get _ _) as [v|] eqn:Hget; simpl.
  - apply Forall_cons. split; [by eapply cache_get_values_none|].
    apply Forall_forall. intros e He. apply list_elem_of_filter in He as [_ He].
    revert e He. by apply Forall_forall.
  - destruct (wrapper_body L u c now st.2) as [[v|e] w'] eqn:Hb; simpl; [|done].
    apply Forall_take, Forall_cons. split; [|done]. simpl.
    eapply (wrapper_body_returns_none L u c now st.2). by rewrite Hb.
Qed.

Lemma run_cache_values_none (L : Limiter) ds : forall st,
  cache_values_none st.1 -> cache_values_none (run L ds st).1.
Proof.
  induction ds as [|d ds IH]; intros st Hc; simpl; [done|].
  apply IH. by apply cache_values_none_wrapper.
Qed.

(** A denial is recognised by its effects. *)
Lemma denied_step_full (L : Limiter) u c now w user_id :
  effective_user u = Some user_id ->
  denied_step L u c now w (wrapper_body L u c now w).2 ->
  messages_per_window L
    <= Z.of_nat (length (prune (window_seconds L) now (history w user_id))).
Proof.
  intros Hu (uid & Hu' & _ & Htr).
  destruct (decide (messages_per_window L
      <= Z.of_nat (length (prune (window_seconds L) now (history w user_id))))) as [|Hroom];
    [done|exfalso].
  rewrite (wrapper_body_admitted L u c now w user_id Hu) in Htr by lia.
  simpl in Htr. by apply app_inv_head in Htr.
Qed.

(** ** Admission up to the capacity *)

(** C4, as stated, fails on the return value: an admitted call returns
    [None], not true, and a denied call returns [None], not false. *)
Lemma admitted_call_returns_none_not_true :
  admitted_step limiter_3_60 (upd 1 7) (ctx 1) 0 initial_world
    (wrapper_body limiter_3_60 (upd 1 7) (ctx 1) 0 initial_world).2 /\
  (wrapper_body limiter_3_60 (upd 1 7) (ctx 1) 0 initial_world).1 = Return PyNone /\
  (wrapper_body limiter_3_60 (upd 1 7) (ctx 1) 0 initial_world).1 <> Return (PyBool true) /\
  denied_step limiter_1_60 (upd 2 7) (ctx 2) 1 world_after_0
    (wrapper_body limiter_1_60 (upd 2 7) (ctx 2) 1 world_after_0).2 /\
  (wrapper_body limiter_1_60 (upd 2 7) (ctx 2) 1 world_after_0).1 <> Return (PyBool false).
Proof.
  split; [|split; [reflexivity|split; [done|split; [|done]]]].
  - exists 7. split; [reflexivity|]. split; reflexivity.
  - exists 7. split; [reflexivity|]. split; reflexivity.
Qed.

(** ** Denial *)

(** C5. A denied call records no timestamp: the only change to the history
    map is that the caller's list is replaced by its pruned self. A second
    call for the same identity at the same instant is denied again, with
    the same return value, and leaves the history map as the first call
    left it; made through the cached wrapper, whatever its cache holds, it
    likewise changes no history and admits nothing. *)
Theorem denial_records_nothing_and_repeats (L : Limiter) (u u' : Update)
    (c c' : CallbackContext) (now : Z) (w : World) (user_id : Z) :
  effective_user u = Some user_id ->
  effective_user u' = Some user_id ->
  denied_step L u c now w (wrapper_body L u c now w).2 ->
  message_history (wrapper_body L u c now w).2
    = <[user_id := prune (window_seconds L) now (history w user_id)]> (message_history w) /\
  admitted_times user_id (trace (wrapper_body L u c now w).2)
    = admitted_times user_id (trace w) /\
  denied_step L u' c' now (wrapper_body L u c now w).2
    (wrapper_body L u' c' now (wrapper_body L u c now w).2).2 /\
  (wrapper_body L u' c' now (wrapper_body L u c now w).2).1 = (wrapper_body L u c now w).1 /\
  message_history (wrapper_body L u' c' now (wrapper_body L u c now w).2).2
    = message_history (wrapper_body L u c now w).2 /\
  (forall cache,
     message_history (wrapper L u' c' now (cache, (wrapper_body L u c now w).2)).2.2
       = message_history (wrapper_body L u c now w).2 /\
     forall uid,
       admitted_times uid (trace (wrapper L u' c' now (cache, (wrapper_body L u c now w).2)).2.2)
       = admitted_times uid (trace w)).
Proof.
  intros Hu Hu' Hden.
  pose proof (denied_step_full L u c now w user_id Hu Hden) as Hfull.
  rewrite (wrapper_body_denied L u c now w user_id Hu Hfull). cbn [fst snd].
  remember {| message_history :=
                <[user_id := prune (window_seconds L) now (history w user_id)]>
                  (message_history w);
              trace := trace w ++ [LogDebug user_id (messages_per_window L)
                                     (window_seconds L) (handler_name (func L))] |}
    as w1 eqn:Hw1.
  assert (Hh1 : history w1 user_id = prune (window_seconds L) now (history w user_id)).
  { rewrite Hw1. apply history_insert. }
  assert (Hfull1 : messages_per_window L
      <= Z.of_nat (length (prune (window_seconds L) now (history w1 user_id)))).
  { by rewrite Hh1, prune_idemp. }
  assert (Hmap : <[user_id := prune (window_seconds L) now (history w1 user_id)]>
                   (message_history w1) = message_history w1).
  { rewrite Hh1, prune_idemp. rewrite Hw1. cbn [message_history].
    by rewrite insert_insert_eq. }
  assert (Htr1 : forall uid, admitted_times uid (trace w1) = admitted_times uid (trace w)).
  { intros uid. rewrite Hw1. apply admitted_times_log. }
  unfold wrapper. cbn [fst snd].
  rewrite (wrapper_body_denied L u' c' now w1 user_id Hu' Hfull1). cbn [fst snd].
  rewrite Hmap. cbn [message_history trace].
  split; [by rewrite Hw1|]. split; [apply Htr1|].
  split; [|split; [done|split; [done|]]].
  - exists user_id. cbn [message_history trace]. split; [done|]. split; [|done].
    rewrite <- Hmap at 1. by rewrite lookup_insert_eq.
  - intros cache. destruct (cache_get _ _); cbn [fst snd message_history trace].
    + split; [done|]. apply Htr1.
    + split; [done|]. intros uid. by rewrite admitted_times_log.
Qed.

Lemma denial_records_nothing_and_repeats_witness :
  message_history (wrapper_body limiter_1_60 (upd 2 7) (ctx 2) 5 world_after_0).2
    = <[7 := prune 60 5 (history world_after_0 7)]> (message_history world_after_0) /\
  message_history
    (wrapper_body limiter_1_60 (upd 3 7) (ctx 3) 5
       (wrapper_body limiter_1_60 (upd 2 7) (ctx 2) 5 world_after_0).2).2
    = message_history (wrapper_body limiter_1_60 (upd 2 7) (ctx 2) 5 world_after_0).2.
Proof.
  pose proof (denial_records_nothing_and_repeats limiter_1_60 (upd 2 7) (upd 3 7)
                (ctx 2) (ctx 3) 5 world_after_0 7) as H.
  destruct H as (Hmap & _ & _ & _ & Hsame & _).
  - reflexivity.
  - reflexivity.
  - exists 7. split; [reflexivity|]. split; reflexivity.
  - split; [exact Hmap|exact Hsame].
Defined.

(** ** Re-admission *)

Lemma within_capacity_body (L : Limiter) u c now w :
  within_capacity (messages_per_window L) w ->
  within_capacity (messages_per_window L) (wrapper_body L u c now w).2.
Proof.
  intros Hw.
  destruct (effective_user u) as [uid|] eqn:Hu.
  2:{ by rewrite wrapper_body_no_user. }
  pose proof (length_filter (fun t => now - t <= window_seconds L) (history w uid)) as Hlen.
  fold (prune (window_seconds L) now (history w uid)) in Hlen.
  destruct (decide (messages_per_window L
      <= Z.of_nat (length (prune (window_seconds L) now (history w uid))))) as [Hfull|Hroom].
  - rewrite (wrapper_body_denied L u c now w uid Hu Hfull). simpl.
    intros user_id. destruct (decide (uid = user_id)) as [<-|Hne].
    + rewrite history_insert. destruct (Hw uid) as [Hnil|Hle].
      * left. by rewrite Hnil.
      * right. lia.
    + rewrite history_insert_ne by done. apply Hw.
  - rewrite (wrapper_body_admitted L u c now w uid Hu) by lia. simpl.
    intros user_id. destruct (decide (uid = user_id)) as [<-|Hne].
    + rewrite history_insert. right. rewrite length_app. simpl. lia.
    + rewrite history_insert_ne by done. apply Hw.
Qed.

Lemma run_within_capacity (L : Limiter) ds : forall st,
  within_capacity (messages_per_window L) st.2 ->
  within_capacity (messages_per_window L) (run L ds st).2.
Proof.
  induction ds as [|d ds IH]; intros st Hw; simpl; [done|].
  apply IH. unfold step.
  destruct (wrapper_world L (d_update d) (d_context d) (d_time d) st) as [-> | ->];
    [done|by apply within_capacity_body].
Qed.

(** C6, as stated, fails at the edge of the window: after admissions at 0,
    1, 2 and a denial at 3 (capacity 3, window 60), the call at
    60 = 0 + 60 is denied, since the timestamp 0 has not aged out. *)
Lemma call_at_window_edge_still_denied :
  history (run limiter_3_60 [at_ 1 7 0; at_ 2 7 1; at_ 3 7 2; at_ 4 7 3] initial_state).2 7
    = [0; 1; 2] /\
  60 >= 0 + window_seconds limiter_3_60 /\
  denied_step limiter_3_60 (upd 5 7) (ctx 5) 60
    (run limiter_3_60 [at_ 1 7 0; at_ 2 7 1; at_ 3 7 2; at_ 4 7 3] initial_state).2
    (wrapper limiter_3_60 (upd 5 7) (ctx 5) 60
       (run limiter_3_60 [at_ 1 7 0; at_ 2 7 1; at_ 3 7 2; at_ 4 7 3] initial_state)).2.2.
Proof.
  split; [vm_compute; reflexivity|]. split; [simpl; lia|].
  exists 7. split; [reflexivity|]. split; vm_compute; reflexivity.
Qed.

(** ** Independence of identities *)

Lemma history_of_lookup (w1 w2 : World) user_id :
  message_history w1 !! user_id = message_history w2 !! user_id ->
  history w1 user_id = history w2 user_id.
Proof. unfold history. by intros ->. Qed.

(** C7. A call for identity [A] changes no other identity's entry of the
    history map, so the history and the remaining quota of every [B] other
    than [A] are as before; and what the call does (its return value, the
    cache, [A]'s new entry, the effects it adds to the trace) is the same
    in any two worlds that agree on [A]'s entry, whatever they hold for
    the others. *)
Theorem identities_are_independent (L : Limiter) (u : Update) (c : CallbackContext)
    (now : Z) (st : list (CacheKey * PyValue) * World) (A : Z) :
  effective_user u = Some A ->
  (forall B, B <> A ->
     message_history (wrapper L u c now st).2.2 !! B = message_history st.2 !! B) /\
  (forall w2, message_history w2 !! A = message_history st.2 !! A ->
     (wrapper L u c now (st.1, w2)).1 = (wrapper L u c now st).1 /\
     (wrapper L u c now (st.1, w2)).2.1 = (wrapper L u c now st).2.1 /\
     message_history (wrapper L u c now (st.1, w2)).2.2 !! A
       = message_history (wrapper L u c now st).2.2 !! A /\
     exists evs, trace (wrapper L u c now st).2.2 = trace st.2 ++ evs /\
                 trace (wrapper L u c now (st.1, w2)).2.2 = trace w2 ++ evs).
Proof.
  intros Hu. destruct st as [cache w]. simpl. split.
  - intros B HB. unfold wrapper. simpl.
    destruct (cache_get _ _); simpl; [done|].
    destruct (decide (messages_per_window L
        <= Z.of_nat (length (prune (window_seconds L) now (history w A))))) as [Hfull|Hroom].
    + rewrite (wrapper_body_denied L u c now w A Hu Hfull). simpl.
      by rewrite lookup_insert_ne.
    + rewrite (wrapper_body_admitted L u c now w A Hu) by lia.
      destruct (handler_raises _ _ _); simpl; by rewrite lookup_insert_ne.
  - intros w2 Hsame. apply history_of_lookup in Hsame as Hh.
    unfold wrapper. simpl.
    destruct (cache_get _ _); simpl.
    { split; [done|]. split; [done|]. split; [done|].
      exists []. by rewrite !app_nil_r. }
    destruct (decide (messages_per_window L
        <= Z.of_nat (length (prune (window_seconds L) now (history w A))))) as [Hfull|Hroom].
    + rewrite (wrapper_body_denied L u c now w A Hu Hfull).
      rewrite (wrapper_body_denied L u c now w2 A Hu) by (by rewrite Hh). simpl.
      rewrite !lookup_insert_eq, Hh. repeat (split; [done|]). by eexists.
    + rewrite (wrapper_body_admitted L u c now w A Hu) by lia.
      rewrite (wrapper_body_admitted L u c now w2 A Hu) by (rewrite Hh; lia).
      destruct (handler_raises _ _ _); simpl;
        rewrite !lookup_insert_eq, Hh; repeat (split; [done|]); by eexists.
Qed.

Lemma identities_are_independent_witness :
  message_history (wrapper limiter_1_60 (upd 2 8) (ctx 2) 0 ([], world_after_0)).2.2 !! 7
  = message_history world_after_0 !! 7.
Proof.
  refine (proj1 (identities_are_independent limiter_1_60 (upd 2 8) (ctx 2) 0
                   ([], world_after_0) 8 eq_refl) 7 _).
  lia.
Defined.

(** ** One history for every decorated function *)

(** An admission is recognised by its effects. *)
Lemma admitted_step_room (L : Limiter) u c now w user_id :
  effective_user u = Some user_id ->
  admitted_step L u c now w (wrapper_body L u c now w).2 ->
  Z.of_nat (length (prune (window_seconds L) now (history w user_id)))
    < messages_per_window L.
Proof.
  intros Hu (uid & Hu' & _ & Htr).
  destruct (decide (messages_per_window L
      <= Z.of_nat (length (prune (window_seconds L) now (history w user_id))))) as [Hfull|];
    [exfalso|lia].
  rewrite (wrapper_body_denied L u c now w user_id Hu Hfull) in Htr.
  simpl in Htr. by apply app_inv_head in Htr.
Qed.

(** C8. The wrappers of all decorated functions read and write the one
    [message_history], keyed by the user id alone. Whatever the arguments
    of the two decorators: a timestamp that the wrapper of one function
    recorded for a user is in the list that the wrapper of another function
    prunes and counts for that user, it adds one to that count while it is
    inside the other's window, and a second function of capacity at most 1
    is thereby denied to the user. *)
Theorem history_shared_by_all_decorated (L1 L2 : Limiter) (u1 u2 : Update)
    (c1 c2 : CallbackContext) (now1 now2 : Z) (w : World) (user_id : Z) :
  effective_user u1 = Some user_id ->
  effective_user u2 = Some user_id ->
  admitted_step L1 u1 c1 now1 w (wrapper_body L1 u1 c1 now1 w).2 ->
  now2 - now1 <= window_seconds L2 ->
  now1 ∈ prune (window_seconds L2) now2 (history (wrapper_body L1 u1 c1 now1 w).2 user_id) /\
  Z.of_nat (length (prune (window_seconds L2) now2
                      (history (wrapper_body L1 u1 c1 now1 w).2 user_id)))
    = Z.of_nat (length (prune (window_seconds L2) now2
                          (prune (window_seconds L1) now1 (history w user_id)))) + 1 /\
  (messages_per_window L2 <= 1 ->
   denied_step L2 u2 c2 now2 (wrapper_body L1 u1 c1 now1 w).2
     (wrapper_body L2 u2 c2 now2 (wrapper_body L1 u1 c1 now1 w).2).2).
Proof.
  intros Hu1 Hu2 Hadm Hin.
  pose proof (admitted_step_room L1 u1 c1 now1 w user_id Hu1 Hadm) as Hroom.
  rewrite (wrapper_body_admitted L1 u1 c1 now1 w user_id Hu1 Hroom). simpl.
  set (w1 := {| message_history := _; trace := _ |}).
  assert (Hh1 : history w1 user_id
                = prune (window_seconds L1) now1 (history w user_id) ++ [now1]).
  { unfold w1. apply history_insert. }
  assert (Hp : prune (window_seconds L2) now2 (history w1 user_id)
               = prune (window_seconds L2) now2
                   (prune (window_seconds L1) now1 (history w user_id)) ++ [now1]).
  { rewrite Hh1. unfold prune at 1. rewrite filter_app. f_equal.
    rewrite filter_cons, filter_nil. by rewrite decide_True. }
  rewrite Hp. split; [|split].
  - apply elem_of_app. right. apply list_elem_of_here.
  - rewrite length_app. simpl. lia.
  - intros Hcap.
    assert (Hfull : messages_per_window L2
        <= Z.of_nat (length (prune (window_seconds L2) now2 (history w1 user_id)))).
    { rewrite Hp, length_app. simpl. lia. }
    rewrite (wrapper_body_denied L2 u2 c2 now2 w1 user_id Hu2 Hfull).
    exists user_id. simpl. by rewrite lookup_insert_eq.
Qed.

(** The prune of a function with a shorter window also discards what a
    function with a longer window would still count: the sliding-window
    bound is a property of one limiter run on its own history. *)
Example shorter_window_prunes_for_all :
  history two_functions_world 7 = [20; 21] /\
  trace two_functions_world
  = [Called "my_function" (upd 1 7) (ctx 1) 0;
     Called "my_function" (upd 2 7) (ctx 2) 1;
     Called "my_function" (upd 3 7) (ctx 3) 2;
     Called "other_function" (upd 4 7) (ctx 4) 20;
     Called "my_function" (upd 5 7) (ctx 5) 21].
Proof. split; vm_compute; reflexivity. Qed.

Lemma history_shared_by_all_decorated_witness :
  denied_step limiter_1_10 (upd 2 7) (ctx 2) 5
    (wrapper_body limiter_3_60 (upd 1 7) (ctx 1) 0 initial_world).2
    (wrapper_body limiter_1_10 (upd 2 7) (ctx 2) 5
       (wrapper_body limiter_3_60 (upd 1 7) (ctx 1) 0 initial_world).2).2.
Proof.
  refine (proj2 (proj2 (history_shared_by_all_decorated limiter_3_60 limiter_1_10
            (upd 1 7) (upd 2 7) (ctx 1) (ctx 2) 0 5 initial_world 7 eq_refl eq_refl _ _)) _).
  - exists 7. split; [reflexivity|]. split; reflexivity.
  - simpl. lia.
  - simpl. lia.
Defined.

(** ** The cache *)

Lemma cache_get_elem cache k v : cache_get k cache = Some v -> (k, v) ∈ cache.
Proof.
  induction cache as [|[k' v'] rest IH]; simpl; [done|].
  case_decide as Hk.
  - intros [= ->]. subst k'. apply list_elem_of_here.
  - intros Hget. apply list_elem_of_further. by apply IH.
Qed.

Lemma cache_length_wrapper (L : Limiter) u c now st :
  (length st.1 <= maxsize)%nat -> (length (wrapper L u c now st).2.1 <= maxsize)%nat.
Proof.
  intros Hlen. unfold wrapper.
  destruct (cache_get _ _) as [v|] eqn:Hget; simpl.
  - apply cache_get_elem in Hget.
    assert (Hne : ~ (make_key u c, v).1 <> make_key u c) by (simpl; tauto).
    pose proof (length_filter_lt (fun e : CacheKey * PyValue => e.1 <> make_key u c)
                  st.1 _ Hget Hne).
    lia.
  - destruct (wrapper_body L u c now st.2) as [[v|e] w']; cbn [fst snd]; [|done].
    unfold cache_put. rewrite length_take. apply Nat.le_min_l.
Qed.

Lemma cache_keys_wrapper (L : Limiter) u c now st k v :
  (k, v) ∈ (wrapper L u c now st).2.1 -> k = make_key u c \/ (k, v) ∈ st.1.
Proof.
  unfold wrapper.
  destruct (cache_get _ _) as [v'|] eqn:Hget; simpl.
  - intros [Heq|Hin]%elem_of_cons; [left; congruence|right].
    by apply list_elem_of_filter in Hin as [_ Hin].
  - destruct (wrapper_body L u c now st.2) as [[v'|e] w']; simpl; [|by right].
    unfold cache_put. intros Hin. apply (subseteq_take maxsize) in Hin.
    apply elem_of_cons in Hin as [Heq|Hin]; [left; congruence|by right].
Qed.

Lemma run_cache (L : Limiter) ds :
  (length (run L ds initial_state).1 <= maxsize)%nat /\
  forall k v, (k, v) ∈ (run L ds initial_state).1 ->
    exists d, d ∈ ds /\ make_key (d_update d) (d_context d) = k.
Proof.
  induction ds as [|d ds [IHlen IHkeys]] using rev_ind.
  - split; [simpl; unfold maxsize; lia|]. intros k v Hin. by apply elem_of_nil in Hin.
  - unfold run in *. rewrite foldl_snoc. split.
    + by apply cache_length_wrapper.
    + intros k v Hin. apply cache_keys_wrapper in Hin as [->|Hin].
      * exists d. split; [|done]. apply elem_of_app. right. apply list_elem_of_here.
      * destruct (IHkeys k v Hin) as (d' & Hd' & Hk). exists d'. split; [|done].
        apply elem_of_app. by left.
Qed.

(** A call that returns leaves its result in the cache under its key. *)
Lemma wrapper_caches_result (L : Limiter) u c now st v :
  (wrapper L u c now st).1 = Return v ->
  cache_get (make_key u c) (wrapper L u c now st).2.1 = Some v.
Proof.
  unfold wrapper.
  destruct (cache_get _ _) as [v'|] eqn:Hget; simpl.
  - intros [= ->]. by rewrite decide_True.
  - destruct (wrapper_body L u c now st.2) as [[v'|e] w']; simpl; [|done].
    intros [= ->]. by rewrite decide_True.
Qed.

(** C9. The wrapper is memoized by a cache of at most 1024 entries, keyed
    on the pair (update, context). When the pair of a call equals one that
    is in the cache, an earlier call with an equal pair put it there, and
    the call returns the cached result ([None]) while the world stays as it
    is: the
    history is not pruned, no timestamp is recorded, the decorated function
    is not called; only the cache entry moves to the front. *)
Theorem cached_call_has_no_effect (L : Limiter) (ds : list Dispatch) (u : Update)
    (c : CallbackContext) (now : Z) (v : PyValue) :
  cache_get (make_key u c) (run L ds initial_state).1 = Some v ->
  (length (run L ds initial_state).1 <= 1024)%nat /\
  (exists d, d ∈ ds /\ make_key (d_update d) (d_context d) = make_key u c) /\
  v = PyNone /\
  wrapper L u c now (run L ds initial_state)
  = (Return v,
     (cache_touch (make_key u c) v (run L ds initial_state).1, (run L ds initial_state).2)).
Proof.
  intros Hget. destruct (run_cache L ds) as [Hlen Hkeys].
  split; [exact Hlen|]. split; [|split].
  - apply (Hkeys _ v). by apply cache_get_elem.
  - eapply cache_get_values_none; [|exact Hget].
    apply run_cache_values_none. constructor.
  - unfold wrapper. by rewrite Hget.
Qed.

Lemma cached_call_has_no_effect_witness :
  wrapper limiter_3_60 (upd 1 7) (ctx 1) 5 (run limiter_3_60 [at_ 1 7 0] initial_state)
  = (Return PyNone,
     (cache_touch (make_key (upd 1 7) (ctx 1)) PyNone
        (run limiter_3_60 [at_ 1 7 0] initial_state).1,
      (run limiter_3_60 [at_ 1 7 0] initial_state).2)).
Proof.
  refine (proj2 (proj2 (proj2 (cached_call_has_no_effect limiter_3_60 [at_ 1 7 0]
                                 (upd 1 7) (ctx 1) 5 PyNone _)))).
  apply (wrapper_caches_result limiter_3_60 (upd 1 7) (ctx 1) 0 initial_state PyNone).
  reflexivity.
Defined.


(** * Further properties of the limiter *)

(** ** Order and size of the stored histories *)

Lemma StronglySorted_filter_le (P : Z -> Prop) `{!forall x, Decision (P x)} (l : list Z) :
  StronglySorted Z.le l -> StronglySorted Z.le (filter P l).
Proof.
  induction 1 as [|x l Hs IH Hall]; [constructor|].
  rewrite filter_cons. case_decide; [|done].
  constructor; [done|]. apply Forall_forall. intros y Hy.
  apply list_elem_of_filter in Hy as [_ Hy]. revert y Hy. by apply Forall_forall.
Qed.

Lemma StronglySorted_snoc_le (l : list Z) (x : Z) :
  StronglySorted Z.le l -> Forall (fun t => t <= x) l -> StronglySorted Z.le (l ++ [x]).
Proof.
  induction 1 as [|y l Hs IH Hall]; intros Hle; simpl.
  - repeat constructor.
  - apply Forall_cons in Hle as [Hy Hle]. constructor; [by apply IH|].
    apply Forall_app. split; [done|]. by constructor.
Qed.

Lemma Forall_le_filter (P : Z -> Prop) `{!forall x, Decision (P x)} (T : Z) (l : list Z) :
  Forall (fun t => t <= T) l -> Forall (fun t => t <= T) (filter P l).
Proof.
  intros Hall. apply Forall_forall. intros y Hy.
  apply list_elem_of_filter in Hy as [_ Hy]. revert y Hy. by apply Forall_forall.
Qed.

Lemma chronological_mono T T' w : chronological T w -> T <= T' -> chronological T' w.
Proof.
  intros Hw Hle uid. destruct (Hw uid) as [Hs Hall]. split; [done|].
  eapply Forall_impl; [exact Hall|]. simpl. intros t Ht. lia.
Qed.

Lemma chronological_body (L : Limiter) T now u c w :
  chronological T w -> T <= now -> chronological now (wrapper_body L u c now w).2.
Proof.
  intros Hw Hle.
  destruct (effective_user u) as [uid|] eqn:Hu.
  2:{ rewrite wrapper_body_no_user by done. by eapply chronological_mono. }
  destruct (Hw uid) as [Hs Hall].
  assert (Hall' : Forall (fun t => t <= now) (history w uid)).
  { eapply Forall_impl; [exact Hall|]. simpl. intros t Ht. lia. }
  destruct (decide (messages_per_window L
      <= Z.of_nat (length (prune (window_seconds L) now (history w uid))))) as [Hfull|Hroom].
  - rewrite (wrapper_body_denied L u c now w uid Hu Hfull). cbn [snd].
    intros user_id. destruct (decide (uid = user_id)) as [<-|Hne].
    + rewrite history_insert. split.
      * by apply StronglySorted_filter_le.
      * by apply Forall_le_filter.
    + rewrite history_insert_ne by done. by apply (chronological_mono T).
  - rewrite (wrapper_body_admitted L u c now w uid Hu) by lia. cbn [snd].
    intros user_id. destruct (decide (uid = user_id)) as [<-|Hne].
    + rewrite history_insert. split.
      * apply StronglySorted_snoc_le; [by apply StronglySorted_filter_le|].
        by apply Forall_le_filter.
      * apply Forall_app. split; [by apply Forall_le_filter|]. constructor; [lia|done].
    + rewrite history_insert_ne by done. by apply (chronological_mono T).
Qed.

Lemma run_chronological (L : Limiter) ds : forall st T now,
  chronological T st.2 ->
  nondecreasing (T :: map d_time ds ++ [now]) ->
  chronological now (run L ds st).2.
Proof.
  induction ds as [|d ds IH]; intros st T now Hw Hs; simpl in *.
  - apply Sorted_inv in Hs as [_ Hhd]. apply HdRel_inv in Hhd.
    by eapply chronological_mono.
  - apply Sorted_inv in Hs as [Hs Hhd]. apply HdRel_inv in Hhd.
    eapply (IH _ (d_time d)); [|done]. unfold step.
    destruct (wrapper_world L (d_update d) (d_context d) (d_time d) st) as [-> | ->].
    + by eapply chronological_mono.
    + by eapply chronological_body.
Qed.

Lemma chronological_initial T : chronological T initial_world.
Proof. intros uid. split; constructor. Qed.

(** X1. Along any run whose clock readings do not decrease, the list stored
    for a user is in chronological (non-decreasing) order, and none of its
    timestamps is later than the next clock reading. *)
Theorem stored_history_chronological (L : Limiter) (ds : list Dispatch) (now user_id : Z) :
  nondecreasing (map d_time ds ++ [now]) ->
  nondecreasing (history (run L ds initial_state).2 user_id) /\
  Forall (fun t => t <= now) (history (run L ds initial_state).2 user_id).
Proof.
  intros Hs. apply nondecreasing_from_head in Hs.
  destruct (run_chronological L ds initial_state _ now (chronological_initial _) Hs user_id)
    as [Hsorted Hall].
  split; [|done]. by apply StronglySorted_Sorted.
Qed.

Lemma stored_history_chronological_witness :
  nondecreasing
    (history (run limiter_3_60 [at_ 1 7 0; at_ 2 7 1; at_ 3 7 2; at_ 4 7 3; at_ 5 7 61]
                initial_state).2 7) /\
  Forall (fun t => t <= 70)
    (history (run limiter_3_60 [at_ 1 7 0; at_ 2 7 1; at_ 3 7 2; at_ 4 7 3; at_ 5 7 61]
                initial_state).2 7).
Proof.
  apply (stored_history_chronological limiter_3_60
           [at_ 1 7 0; at_ 2 7 1; at_ 3 7 2; at_ 4 7 3; at_ 5 7 61] 70 7).
  simpl. repeat constructor; lia.
Defined.

(** X3. No call ever deletes an entry of [message_history]: the set of
    users that have an entry only grows along a run. *)
Theorem entries_never_removed (L : Limiter) (ds : list Dispatch)
    (st : list (CacheKey * PyValue) * World) :
  dom (message_history st.2) ⊆ dom (message_history (run L ds st).2).
Proof.
  revert st. induction ds as [|d ds IH]; intros st; simpl; [done|].
  etrans; [|apply IH]. unfold step.
  destruct (wrapper_world L (d_update d) (d_context d) (d_time d) st) as [-> | ->]; [done|].
  destruct (effective_user (d_update d)) as [uid|] eqn:Hu.
  2:{ by rewrite wrapper_body_no_user. }
  destruct (decide (messages_per_window L
      <= Z.of_nat (length (prune (window_seconds L) (d_time d) (history st.2 uid)))))
    as [Hfull|Hroom].
  - rewrite (wrapper_body_denied L _ _ _ _ uid Hu Hfull). cbn [snd message_history].
    apply dom_insert_subseteq.
  - rewrite (wrapper_body_admitted L _ _ _ _ uid Hu) by lia. cbn [snd message_history].
    apply dom_insert_subseteq.
Qed.

(** ** Exceptions *)

(** X4. When the decorated function raises, the exception leaves the
    wrapper, yet the timestamp recorded just before the call stays in the
    history, so the failed call has used up quota; and since an exception
    is not memoized, the cache is as before and a repeated dispatch of the
    same update runs the body again. *)
Theorem failing_callback_consumes_quota (L : Limiter) (u : Update) (c : CallbackContext)
    (now : Z) (st : list (CacheKey * PyValue) * World) (user_id : Z) :
  effective_user u = Some user_id ->
  cache_get (make_key u c) st.1 = None ->
  Z.of_nat (length (prune (window_seconds L) now (history st.2 user_id)))
    < messages_per_window L ->
  handler_raises (func L) u c = true ->
  (wrapper L u c now st).1 = Raise HandlerError /\
  (wrapper L u c now st).2.1 = st.1 /\
  cache_get (make_key u c) (wrapper L u c now st).2.1 = None /\
  history (wrapper L u c now st).2.2 user_id
    = prune (window_seconds L) now (history st.2 user_id) ++ [now] /\
  trace (wrapper L u c now st).2.2
    = trace st.2 ++ [Called (handler_name (func L)) u c now].
Proof.
  intros Hu Hmiss Hroom Hraise. unfold wrapper. rewrite Hmiss.
  rewrite (wrapper_body_admitted L u c now st.2 user_id Hu Hroom), Hraise.
  cbn [fst snd trace]. rewrite history_insert. done.
Qed.

Lemma failing_callback_consumes_quota_witness :
  (wrapper limiter_failing (upd 1 7) (ctx 1) 0 initial_state).1 = Raise HandlerError /\
  history (wrapper limiter_failing (upd 1 7) (ctx 1) 0 initial_state).2.2 7
    = prune (window_seconds limiter_failing) 0 (history initial_state.2 7) ++ [0].
Proof.
  pose proof (failing_callback_consumes_quota limiter_failing (upd 1 7) (ctx 1) 0
                initial_state 7) as H.
  destruct H as (Hr & _ & _ & Hh & _).
  - reflexivity.
  - reflexivity.
  - vm_compute. reflexivity.
  - reflexivity.
  - split; [exact Hr|exact Hh].
Defined.

Lemma step_no_user (L : Limiter) st d :
  effective_user (d_update d) = None -> (step L st d).2 = st.2.
Proof.
  intros Hu. unfold step, wrapper.
  destruct (cache_get _ _); [done|]. by rewrite wrapper_body_no_user.
Qed.

(** X5. Updates without an effective user never change anything: whatever
    the state, a run of such updates leaves the history and the trace as
    they were, and from a fresh process it leaves the cache empty as well
    (the [AttributeError] is not memoized). *)
Theorem updates_without_user_change_nothing (L : Limiter) (ds : list Dispatch)
    (st : list (CacheKey * PyValue) * World) :
  Forall (fun d => effective_user (d_update d) = None) ds ->
  (run L ds st).2 = st.2 /\ run L ds initial_state = initial_state.
Proof.
  intros Hall. split.
  - revert st. induction Hall as [|d ds Hd _ IH]; intros st; simpl; [done|].
    rewrite IH. by apply step_no_user.
  - induction Hall as [|d ds Hd _ IH]; simpl; [done|].
    replace (step L initial_state d) with initial_state; [done|].
    unfold step, wrapper. simpl. by rewrite wrapper_body_no_user.
Qed.

Lemma updates_without_user_change_nothing_witness :
  run limiter_3_60
    [ {| d_update := no_user 1; d_context := ctx 1; d_time := 0 |};
      {| d_update := no_user 1; d_context := ctx 1; d_time := 4 |} ] initial_state
  = initial_state.
Proof.
  refine (proj2 (updates_without_user_change_nothing limiter_3_60
            [ {| d_update := no_user 1; d_context := ctx 1; d_time := 0 |};
              {| d_update := no_user 1; d_context := ctx 1; d_time := 4 |} ]
            initial_state _)).
  repeat constructor.
Defined.

(** ** Idle users and degenerate windows *)

Lemma prune_all_stale ws now (h : list Z) :
  Forall (fun t => ws < now - t) h -> prune ws now h = [].
Proof.
  unfold prune. induction h as [|t h IH]; intros Hall; [done|].
  apply Forall_cons in Hall as [Ht Hall].
  rewrite filter_cons_False by lia. by apply IH.
Qed.

Lemma wrapper_body_stale (L : Limiter) u c now w user_id :
  effective_user u = Some user_id ->
  Forall (fun t => window_seconds L < now - t) (history w user_id) ->
  1 <= messages_per_window L ->
  wrapper_body L u c now w
  = (if handler_raises (func L) u c then Raise HandlerError else Return PyNone,
     {| message_history := <[user_id := [now]]> (message_history w);
        trace := trace w ++ [Called (handler_name (func L)) u c now] |}).
Proof.
  intros Hu Hold Hcap. pose proof (prune_all_stale _ _ _ Hold) as Hnil.
  rewrite (wrapper_body_admitted L u c now w user_id Hu) by (rewrite Hnil; simpl; lia).
  by rewrite Hnil.
Qed.

Lemma run_history_le_now (L : Limiter) ds now user_id :
  nondecreasing (map d_time ds ++ [now]) ->
  Forall (fun t => t <= now) (history (run L ds initial_state).2 user_id).
Proof.
  intros Hs. apply nondecreasing_from_head in Hs.
  by destruct (run_chronological L ds initial_state _ now (chronological_initial _) Hs user_id).
Qed.

(** X6. Once every timestamp stored for a user is older than the window
    (in particular when the user has no entry yet), a call for that user
    under a capacity of at least 1 is admitted, and the user's history is
    afterwards the single timestamp of that call: the quota is whole
    again. *)
Theorem idle_user_starts_afresh (L : Limiter) (u : Update) (c : CallbackContext)
    (now : Z) (w : World) (user_id : Z) :
  effective_user u = Some user_id ->
  Forall (fun t => window_seconds L < now - t) (history w user_id) ->
  1 <= messages_per_window L ->
  admitted_step L u c now w (wrapper_body L u c now w).2 /\
  history (wrapper_body L u c now w).2 user_id = [now].
Proof.
  intros Hu Hold Hcap.
  rewrite (wrapper_body_stale L u c now w user_id Hu Hold Hcap). cbn [snd].
  rewrite history_insert. split; [|done].
  exists user_id. cbn [message_history trace].
  by rewrite lookup_insert_eq, (prune_all_stale _ _ _ Hold).
Qed.

Lemma idle_user_starts_afresh_witness :
  admitted_step limiter_1_60 (upd 2 7) (ctx 2) 100 world_after_0
    (wrapper_body limiter_1_60 (upd 2 7) (ctx 2) 100 world_after_0).2 /\
  history (wrapper_body limiter_1_60 (upd 2 7) (ctx 2) 100 world_after_0).2 7 = [100].
Proof.
  apply (idle_user_starts_afresh limiter_1_60 (upd 2 7) (ctx 2) 100 world_after_0 7).
  - reflexivity.
  - vm_compute. repeat constructor.
  - simpl. lia.
Defined.

(** X7. A negative [window_seconds] switches the limit off: along a run
    whose clock readings do not decrease, every call that has a user and is
    not answered from the cache is admitted as soon as the capacity is at
    least 1, because the prune then discards every stored timestamp. *)
Theorem negative_window_never_limits (L : Limiter) (ds : list Dispatch) (d : Dispatch)
    (user_id : Z) :
  nondecreasing (map d_time (ds ++ [d])) ->
  window_seconds L < 0 ->
  1 <= messages_per_window L ->
  effective_user (d_update d) = Some user_id ->
  cache_get (make_key (d_update d) (d_context d)) (run L ds initial_state).1 = None ->
  admitted_step L (d_update d) (d_context d) (d_time d) (run L ds initial_state).2
    (run L (ds ++ [d]) initial_state).2 /\
  history (run L (ds ++ [d]) initial_state).2 user_id = [d_time d].
Proof.
  intros Hs Hneg Hcap Hu Hmiss.
  rewrite map_app in Hs. simpl in Hs.
  pose proof (run_history_le_now L ds (d_time d) user_id Hs) as Hall.
  assert (Hrun : run L (ds ++ [d]) initial_state = step L (run L ds initial_state) d).
  { unfold run. apply foldl_snoc. }
  rewrite Hrun. unfold step, wrapper. rewrite Hmiss.
  assert (Hold : Forall (fun t => window_seconds L < d_time d - t)
                   (history (run L ds initial_state).2 user_id)).
  { eapply Forall_impl; [exact Hall|]. simpl. intros t Ht. lia. }
  rewrite (wrapper_body_stale L _ _ _ _ user_id Hu Hold Hcap).
  destruct (handler_raises _ _ _); cbn [fst snd]; rewrite history_insert;
    (split; [|done]); exists user_id; cbn [message_history trace];
    by rewrite lookup_insert_eq, (prune_all_stale _ _ _ Hold).
Qed.

Lemma negative_window_never_limits_witness :
  history (run limiter_negative_window ([at_ 1 7 0; at_ 2 7 0] ++ [at_ 3 7 0])
             initial_state).2 7 = [0].
Proof.
  refine (proj2 (negative_window_never_limits limiter_negative_window
                   [at_ 1 7 0; at_ 2 7 0] (at_ 3 7 0) 7 _ _ _ _ _)).
  - simpl. repeat constructor; lia.
  - simpl. lia.
  - simpl. lia.
  - reflexivity.
  - vm_compute. reflexivity.
Defined.

(** X8. After a call for a user, every timestamp stored for that user lies
    inside the window of that call or is the timestamp of the call itself;
    with a window that is not negative, all of them lie inside the window. *)
Theorem stored_timestamps_within_window (L : Limiter) (u : Update) (c : CallbackContext)
    (now : Z) (w : World) (user_id : Z) :
  effective_user u = Some user_id ->
  (forall t, t ∈ history (wrapper_body L u c now w).2 user_id ->
             now - t <= window_seconds L \/ t = now) /\
  (0 <= window_seconds L ->
   Forall (fun t => now - t <= window_seconds L) (history (wrapper_body L u c now w).2 user_id)).
Proof.
  intros Hu.
  assert (Hgen : forall t, t ∈ history (wrapper_body L u c now w).2 user_id ->
                           now - t <= window_seconds L \/ t = now).
  { intros t.
    destruct (decide (messages_per_window L
        <= Z.of_nat (length (prune (window_seconds L) now (history w user_id)))))
      as [Hfull|Hroom].
    - rewrite (wrapper_body_denied L u c now w user_id Hu Hfull). cbn [snd].
      rewrite history_insert. intros Ht. apply list_elem_of_filter in Ht as [Ht _]. by left.
    - rewrite (wrapper_body_admitted L u c now w user_id Hu) by lia. cbn [snd].
      rewrite history_insert. intros [Ht|Ht]%elem_of_app.
      + apply list_elem_of_filter in Ht as [Ht _]. by left.
      + apply list_elem_of_singleton in Ht. by right. }
  split; [exact Hgen|]. intros Hws. apply Forall_forall. intros t Ht.
  destruct (Hgen t Ht) as [Hin| ->]; lia.
Qed.

Lemma stored_timestamps_within_window_witness :
  Forall (fun t => 61 - t <= window_seconds limiter_3_60)
    (history (wrapper_body limiter_3_60 (upd 5 7) (ctx 5) 61
                (run limiter_3_60 [at_ 1 7 0; at_ 2 7 1; at_ 3 7 2] initial_state).2).2 7).
Proof.
  refine (proj2 (stored_timestamps_within_window limiter_3_60 (upd 5 7) (ctx 5) 61
                   (run limiter_3_60 [at_ 1 7 0; at_ 2 7 1; at_ 3 7 2] initial_state).2 7 _) _).
  - reflexivity.
  - simpl. lia.
Defined.

(** ** How long the cache remembers a call *)

Lemma cache_get_take_S k v m (l : list (CacheKey * PyValue)) :
  cache_get k (take m l) = Some v -> cache_get k (take (S m) l) = Some v.
Proof.
  revert m. induction l as [|[k' v'] l IH]; intros m.
  - by rewrite take_nil.
  - destruct m as [|m]; [done|]. cbn [take cache_get].
    case_decide; [done|]. apply IH.
Qed.

Lemma cache_get_take_full k v m (l : list (CacheKey * PyValue)) :
  cache_get k (take m l) = Some v -> cache_get k l = Some v.
Proof.
  revert m. induction l as [|[k' v'] l IH]; intros m.
  - by rewrite take_nil.
  - destruct m as [|m]; [done|]. cbn [take cache_get].
    case_decide; [done|]. apply IH.
Qed.

Lemma cache_get_take_filter k k' v m (l : list (CacheKey * PyValue)) :
  k <> k' ->
  cache_get k (take m l) = Some v ->
  cache_get k (take m (filter (fun e => e.1 <> k') l)) = Some v.
Proof.
  intros Hne. revert m. induction l as [|[kx vx] l IH]; intros m.
  - by rewrite take_nil.
  - destruct m as [|m]; [done|]. cbn [take cache_get].
    rewrite filter_cons. cbn [fst].
    destruct (decide (k = kx)) as [->|Hkx].
    + rewrite decide_True by done. cbn [take cache_get]. by rewrite decide_True.
    + intros Hget. case_decide.
      * cbn [take cache_get]. rewrite decide_False by done. by apply IH.
      * apply cache_get_take_S. by apply IH.
Qed.

Lemma cache_retained_wrapper (L : Limiter) u c now st k v n :
  cache_get k (take (S n) st.1) = Some v ->
  (S (S n) <= maxsize)%nat ->
  cache_get k (take (S (S n)) (wrapper L u c now st).2.1) = Some v.
Proof.
  intros Hget Hn. pose proof (cache_get_take_full _ _ _ _ Hget) as Hfull.
  unfold wrapper.
  destruct (cache_get (make_key u c) st.1) as [v'|] eqn:Hkey; cbn [fst snd].
  - unfold cache_touch. cbn [take cache_get].
    destruct (decide (k = make_key u c)) as [->|Hne].
    + congruence.
    + by apply cache_get_take_filter.
  - destruct (wrapper_body L u c now st.2) as [[v'|e] w']; cbn [fst snd].
    + unfold cache_put. rewrite take_take, Nat.min_l by done.
      cbn [take cache_get].
      destruct (decide (k = make_key u c)) as [->|Hne]; [congruence|done].
    + by apply cache_get_take_S.
Qed.

Lemma cache_retained_run (L : Limiter) ds : forall st k v n,
  cache_get k (take (S n) st.1) = Some v ->
  (S n + length ds <= maxsize)%nat ->
  cache_get k (take (S n + length ds) (run L ds st).1) = Some v.
Proof.
  induction ds as [|d ds IH]; intros st k v n Hget Hn; simpl in *.
  - by rewrite Nat.add_0_r.
  - replace (S (n + S (length ds))) with (S (S n) + length ds)%nat by lia.
    apply IH; [|lia]. apply cache_retained_wrapper; [done|lia].
Qed.

Lemma wrapper_caches_result_first (L : Limiter) u c now st v :
  (wrapper L u c now st).1 = Return v ->
  cache_get (make_key u c) (take 1 (wrapper L u c now st).2.1) = Some v.
Proof.
  unfold wrapper.
  destruct (cache_get _ _) as [v'|] eqn:Hget; cbn [fst snd].
  - intros [= ->]. unfold cache_touch. cbn [take cache_get]. by rewrite decide_True.
  - destruct (wrapper_body L u c now st.2) as [[v'|e] w']; cbn [fst snd]; [|done].
    intros [= ->]. unfold cache_put. rewrite take_take.
    replace (1 `min` maxsize)%nat with 1%nat by (unfold maxsize; lia).
    cbn [take cache_get]. by rewrite decide_True.
Qed.

(** X9. A call that returned is remembered through at least the next 1023
    calls of the wrapper: when an equal (update, context) pair is dispatched
    again after fewer than 1024 calls in between, whatever they were and
    whatever the clock says by then, the wrapper returns the remembered
    value and does nothing else. In particular an update that was denied
    once is not reconsidered when it is dispatched again, even after the
    window has passed. *)
Theorem repeated_update_is_swallowed (L : Limiter) (u u' : Update) (c c' : CallbackContext)
    (now now' : Z) (st : list (CacheKey * PyValue) * World) (v : PyValue)
    (ds : list Dispatch) :
  (wrapper L u c now st).1 = Return v ->
  (length ds < maxsize)%nat ->
  make_key u' c' = make_key u c ->
  (wrapper L u' c' now' (run L ds (wrapper L u c now st).2)).1 = Return v /\
  (wrapper L u' c' now' (run L ds (wrapper L u c now st).2)).2.2
    = (run L ds (wrapper L u c now st).2).2.
Proof.
  intros Hret Hlen Hkey.
  pose proof (wrapper_caches_result_first L u c now st v Hret) as Hfirst.
  pose proof (cache_retained_run L ds _ _ _ 0%nat Hfirst ltac:(lia)) as Hkept.
  apply cache_get_take_full in Hkept.
  unfold wrapper at 1 3. rewrite Hkey, Hkept. done.
Qed.

Lemma repeated_update_is_swallowed_witness :
  (wrapper limiter_1_60 (upd 2 7) (ctx 2) 500
     (run limiter_1_60 [at_ 3 8 10; at_ 4 8 20]
        (wrapper limiter_1_60 (upd 2 7) (ctx 2) 5 ([], world_after_0)).2)).2.2
  = (run limiter_1_60 [at_ 3 8 10; at_ 4 8 20]
       (wrapper limiter_1_60 (upd 2 7) (ctx 2) 5 ([], world_after_0)).2).2.
Proof.
  refine (proj2 (repeated_update_is_swallowed limiter_1_60 (upd 2 7) (upd 2 7) (ctx 2) (ctx 2)
                   5 500 ([], world_after_0) PyNone [at_ 3 8 10; at_ 4 8 20] _ _ _)).
  - reflexivity.
  - unfold maxsize. simpl. lia.
  - reflexivity.
Defined.

(** * Registration of handlers *)

Lemma add_handler_Some accepted h g r r' :
  add_handler accepted h g r = Some r' ->
  accepted h g = true /\ handlers r' = handlers r ++ [(h, g)] /\ loaded r' = loaded r.
Proof.
  unfold add_handler. destruct (accepted h g); [|done]. by intros [= <-].
Qed.

Lemma add_handler_None accepted h g r :
  add_handler accepted h g r = None -> accepted h g = false.
Proof. unfold add_handler. by destruct (accepted h g). Qed.

Lemma with_edited_excluded base is_edited (filters : option Filter) u :
  filter_accepts base is_edited
    match filters with
    | Some f => MergedAnd f (Inverted EditedMessage)
    | None => Inverted EditedMessage
    end u
  = match filters with
    | Some f => filter_accepts base is_edited f u
    | None => true
    end && negb (is_edited u).
Proof. by destruct filters. Qed.

(** What a successful [command] did, attempt by attempt. *)
Lemma command_Some accepted cmd filters admin_ok pass_args pass_chat_data run_async
    can_disable group func r cb r' :
  command accepted cmd filters admin_ok pass_args pass_chat_data run_async can_disable
    group func r = Some (cb, r') ->
  let f := match filters with
           | Some f => MergedAnd f (Inverted EditedMessage)
           | None => Inverted EditedMessage
           end in
  let make p := if can_disable
                then DisableAbleCommandHandler cmd func f run_async pass_args admin_ok p
                else CommandHandler cmd func f run_async pass_args p in
  cb = func /\
  ((accepted (make None) (Some group) = true /\
    handlers r' = handlers r ++ [(make None, Some group)] /\
    loaded r' = loaded r ++ [KIGCMD cmd (callback_name func) (Some group)])
   \/ (accepted (make None) (Some group) = false /\
       accepted (make (Some pass_chat_data)) None = true /\
       handlers r' = handlers r ++ [(make (Some pass_chat_data), None)] /\
       loaded r' = loaded r ++ [KIGCMD cmd (callback_name func) None])).
Proof.
  unfold command. intros H. cbn zeta.
  destruct can_disable.
  - destruct (add_handler _ _ (Some group) r) as [r1|] eqn:H1.
    + injection H as <- <-. apply add_handler_Some in H1 as (Ha & Hh & Hl).
      split; [done|]. left. cbn [log_debug handlers loaded]. by rewrite Hl.
    + apply add_handler_None in H1.
      destruct (add_handler _ _ None r) as [r2|] eqn:H2; [|done].
      injection H as <- <-. apply add_handler_Some in H2 as (Ha & Hh & Hl).
      split; [done|]. right. cbn [log_debug handlers loaded]. by rewrite Hl.
  - destruct (add_handler _ _ (Some group) r) as [r1|] eqn:H1.
    + injection H as <- <-. apply add_handler_Some in H1 as (Ha & Hh & Hl).
      split; [done|]. left. cbn [log_debug handlers loaded]. by rewrite Hl.
    + apply add_handler_None in H1.
      destruct (add_handler _ _ None r) as [r2|] eqn:H2; [|done].
      injection H as <- <-. apply add_handler_Some in H2 as (Ha & Hh & Hl).
      split; [done|]. right. cbn [log_debug handlers loaded]. by rewrite Hl.
Qed.

Lemma message_Some accepted pattern can_disable run_async group friendly func r cb r' :
  message accepted pattern can_disable run_async group friendly func r = Some (cb, r') ->
  let f := match pattern with
           | Some f => MergedAnd f (Inverted EditedMessage)
           | None => Inverted EditedMessage
           end in
  let h := if can_disable
           then DisableAbleMessageHandler f func friendly run_async
           else MessageHandler f func run_async in
  cb = func /\
  ((accepted h (Some group) = true /\
    handlers r' = handlers r ++ [(h, Some group)] /\
    loaded r' = loaded r ++ [KIGMSG f (callback_name func) (Some group)])
   \/ (accepted h (Some group) = false /\
       accepted h None = true /\
       handlers r' = handlers r ++ [(h, None)] /\
       loaded r' = loaded r ++ [KIGMSG f (callback_name func) None])).
Proof.
  unfold message. intros H. cbn zeta.
  destruct can_disable.
  - destruct (add_handler _ _ (Some group) r) as [r1|] eqn:H1.
    + injection H as <- <-. apply add_handler_Some in H1 as (Ha & Hh & Hl).
      split; [done|]. left. cbn [log_debug handlers loaded]. by rewrite Hl.
    + apply add_handler_None in H1.
      destruct (add_handler _ _ None r) as [r2|] eqn:H2; [|done].
      injection H as <- <-. apply add_handler_Some in H2 as (Ha & Hh & Hl).
      split; [done|]. right. cbn [log_debug handlers loaded]. by rewrite Hl.
  - destruct (add_handler _ _ (Some group) r) as [r1|] eqn:H1.
    + injection H as <- <-. apply add_handler_Some in H1 as (Ha & Hh & Hl).
      split; [done|]. left. cbn [log_debug handlers loaded]. by rewrite Hl.
    + apply add_handler_None in H1.
      destruct (add_handler _ _ None r) as [r2|] eqn:H2; [|done].
      injection H as <- <-. apply add_handler_Some in H2 as (Ha & Hh & Hl).
      split; [done|]. right. cbn [log_debug handlers loaded]. by rewrite Hl.
Qed.

(** X10. Whatever filter the caller gives to [command] (or none), whether
    the handler can be disabled or not and whichever of the two attempts
    registers it, the [filters] argument that [command] passes to the
    handler it constructs lets no edited message through; on every other
    update that argument decides as the caller's filter does, and lets
    everything through when there is none. (What the handler class makes
    of the argument it is given is the framework's business.) *)
Theorem command_ignores_edited_messages
    (accepted : HandlerObj -> option (option Z) -> bool) (cmd : string)
    (filters : option Filter) (admin_ok pass_args pass_chat_data run_async can_disable : bool)
    (group : option Z) (func cb : Callback) (r r' : Registry) :
  command accepted cmd filters admin_ok pass_args pass_chat_data run_async can_disable
    group func r = Some (cb, r') ->
  exists h g f,
    handlers r' = handlers r ++ [(h, g)] /\
    handler_filter h = Some f /\
    forall base is_edited u,
      filter_accepts base is_edited f u
      = match filters with
        | Some given => filter_accepts base is_edited given u
        | None => true
        end && negb (is_edited u).
Proof.
  intros H. apply command_Some in H. cbn zeta in H.
  destruct H as (_ & [(_ & Hh & _) | (_ & _ & Hh & _)]);
    (eexists _, _, _; split; [exact Hh|]; split;
       [by destruct can_disable | intros; apply with_edited_excluded]).
Qed.

Lemma command_ignores_edited_messages_witness :
  exists h g f,
    handlers
      {| handlers :=
           [(DisableAbleCommandHandler "start" (Undecorated noop)
               (MergedAnd (BaseFilter "group") (Inverted EditedMessage)) true false false None,
             Some (Some 40))];
         loaded := [KIGCMD "start" "my_function" (Some (Some 40))] |}
    = handlers empty_registry ++ [(h, g)] /\
    handler_filter h = Some f /\
    forall base is_edited u,
      filter_accepts base is_edited f u
      = match Some (BaseFilter "group") with
        | Some given => filter_accepts base is_edited given u
        | None => true
        end && negb (is_edited u).
Proof.
  apply (command_ignores_edited_messages int_group_only "start" (Some (BaseFilter "group"))
           false false false true true (Some 40) (Undecorated noop) (Undecorated noop)
           empty_registry).
  reflexivity.
Defined.

(** X11. The same holds for [message]: the pattern of the handler it
    registers lets no edited message through, and otherwise decides as the
    caller's pattern does. *)
Theorem message_ignores_edited_messages
    (accepted : HandlerObj -> option (option Z) -> bool) (pattern : option Filter)
    (can_disable run_async : bool) (group : option Z) (friendly : option string)
    (func cb : Callback) (r r' : Registry) :
  message accepted pattern can_disable run_async group friendly func r = Some (cb, r') ->
  exists h g f,
    handlers r' = handlers r ++ [(h, g)] /\
    handler_filter h = Some f /\
    forall base is_edited u,
      filter_accepts base is_edited f u
      = match pattern with
        | Some given => filter_accepts base is_edited given u
        | None => true
        end && negb (is_edited u).
Proof.
  intros H. apply message_Some in H. cbn zeta in H.
  destruct H as (_ & [(_ & Hh & _) | (_ & _ & Hh & _)]);
    (eexists _, _, _; split; [exact Hh|]; split;
       [by destruct can_disable | intros; apply with_edited_excluded]).
Qed.

Lemma message_ignores_edited_messages_witness :
  exists h g f,
    handlers
      {| handlers := [(MessageHandler (Inverted EditedMessage) (Undecorated noop) true, None)];
         loaded := [KIGMSG (Inverted EditedMessage) "my_function" None] |}
    = handlers empty_registry ++ [(h, g)] /\
    handler_filter h = Some f /\
    forall base is_edited u,
      filter_accepts base is_edited f u
      = match @None Filter with
        | Some given => filter_accepts base is_edited given u
        | None => true
        end && negb (is_edited u).
Proof.
  apply (message_ignores_edited_messages int_group_only None false true None None
           (Undecorated noop) (Undecorated noop) empty_registry).
  reflexivity.
Defined.

(** X12. [command] passes [pass_chat_data] to the handler only in its
    second attempt: a handler that it registers together with its group
    never carries the argument, whatever the caller asked for; a handler
    that carries it was added without a group, after the first attempt
    raised [TypeError]. *)
Theorem command_pass_chat_data_only_on_retry
    (accepted : HandlerObj -> option (option Z) -> bool) (cmd : string)
    (filters : option Filter) (admin_ok pass_args pass_chat_data run_async can_disable : bool)
    (group : option Z) (func cb : Callback) (r r' : Registry) :
  command accepted cmd filters admin_ok pass_args pass_chat_data run_async can_disable
    group func r = Some (cb, r') ->
  exists h g,
    handlers r' = handlers r ++ [(h, g)] /\
    ((g = Some group /\ handler_pass_chat_data h = None)
     \/ (g = None /\ handler_pass_chat_data h = Some pass_chat_data /\
         exists h1, accepted h1 (Some group) = false)).
Proof.
  intros H. apply command_Some in H. cbn zeta in H.
  destruct H as (_ & [(_ & Hh & _) | (Hno & _ & Hh & _)]).
  - eexists _, _. split; [exact Hh|]. left. split; [done|]. by destruct can_disable.
  - eexists _, _. split; [exact Hh|]. right. split; [done|].
    split; [by destruct can_disable|]. eexists. exact Hno.
Qed.

Lemma command_pass_chat_data_only_on_retry_witness :
  exists h g,
    handlers
      {| handlers :=
           [(CommandHandler "help" (Undecorated noop) (Inverted EditedMessage) true false
               None, Some (Some 40))];
         loaded := [KIGCMD "help" "my_function" (Some (Some 40))] |}
    = handlers empty_registry ++ [(h, g)] /\
    ((g = Some (Some 40) /\ handler_pass_chat_data h = None)
     \/ (g = None /\ handler_pass_chat_data h = Some true /\
         exists h1, int_group_only h1 (Some (Some 40)) = false)).
Proof.
  apply (command_pass_chat_data_only_on_retry int_group_only "help" None false false true
           true false (Some 40) (Undecorated noop) (Undecorated noop) empty_registry).
  reflexivity.
Defined.

(** X13. Each of the four decorators, when it does not raise, hands back
    the very function it was given (not a wrapper of it), adds exactly one
    handler at the end of the dispatcher's list with that function as its
    callback, keeps the handlers registered before and their order, and
    logs one line. So a decorator stacked above one of them changes nothing
    of what the dispatcher calls. *)
Theorem decorators_register_the_given_function
    (accepted : HandlerObj -> option (option Z) -> bool) (func cb : Callback)
    (r r' : Registry) :
  (forall cmd filters admin_ok pass_args pass_chat_data run_async can_disable group,
     command accepted cmd filters admin_ok pass_args pass_chat_data run_async can_disable
       group func r = Some (cb, r') ->
     cb = func /\ exists h g line,
       handlers r' = handlers r ++ [(h, g)] /\ handler_callback h = func /\
       loaded r' = loaded r ++ [line]) /\
  (forall pattern can_disable run_async group friendly,
     message accepted pattern can_disable run_async group friendly func r = Some (cb, r') ->
     cb = func /\ exists h g line,
       handlers r' = handlers r ++ [(h, g)] /\ handler_callback h = func /\
       loaded r' = loaded r ++ [line]) /\
  (forall pattern run_async,
     callbackquery accepted pattern run_async func r = Some (cb, r') ->
     cb = func /\ exists h g line,
       handlers r' = handlers r ++ [(h, g)] /\ handler_callback h = func /\
       loaded r' = loaded r ++ [line]) /\
  (forall pattern run_async pass_user_data pass_chat_data chat_types,
     inlinequery accepted pattern run_async pass_user_data pass_chat_data chat_types func r
       = Some (cb, r') ->
     cb = func /\ exists h g line,
       handlers r' = handlers r ++ [(h, g)] /\ handler_callback h = func /\
       loaded r' = loaded r ++ [line]).
Proof.
  split; [|split; [|split]].
  - intros cmd filters admin_ok pass_args pass_chat_data run_async can_disable group H.
    apply command_Some in H. cbn zeta in H.
    destruct H as (-> & [(_ & Hh & Hl) | (_ & _ & Hh & Hl)]);
      (split; [done|]; eexists _, _, _; split; [exact Hh|]; split;
         [by destruct can_disable | exact Hl]).
  - intros pattern can_disable run_async group friendly H.
    apply message_Some in H. cbn zeta in H.
    destruct H as (-> & [(_ & Hh & Hl) | (_ & _ & Hh & Hl)]);
      (split; [done|]; eexists _, _, _; split; [exact Hh|]; split;
         [by destruct can_disable | exact Hl]).
  - intros pattern run_async H. unfold callbackquery in H.
    destruct (add_handler _ _ _ r) as [r1|] eqn:H1; [|done].
    injection H as <- <-. apply add_handler_Some in H1 as (_ & Hh & Hl).
    split; [done|]. eexists _, _, _. split; [exact Hh|]. split; [done|].
    cbn [log_debug loaded]. by rewrite Hl.
  - intros pattern run_async pass_user_data pass_chat_data chat_types H.
    unfold inlinequery in H.
    destruct (add_handler _ _ _ r) as [r1|] eqn:H1; [|done].
    injection H as <- <-. apply add_handler_Some in H1 as (_ & Hh & Hl).
    split; [done|]. eexists _, _, _. split; [exact Hh|]. split; [done|].
    cbn [log_debug loaded]. by rewrite Hl.
Qed.

Lemma decorators_register_the_given_function_witness :
  RateLimited limiter_3_60 = RateLimited limiter_3_60 /\
  exists h g line,
    handlers
      {| handlers := [(CallbackQueryHandler (Some "btn_") (RateLimited limiter_3_60) true,
                       None)];
         loaded := [KIGCALLBACK (Some "btn_") "wrapper"] |}
    = handlers empty_registry ++ [(h, g)] /\
    handler_callback h = RateLimited limiter_3_60 /\
    loaded
      {| handlers := [(CallbackQueryHandler (Some "btn_") (RateLimited limiter_3_60) true,
                       None)];
         loaded := [KIGCALLBACK (Some "btn_") "wrapper"] |}
    = loaded empty_registry ++ [line].
Proof.
  apply (proj1 (proj2 (proj2 (decorators_register_the_given_function int_group_only
           (RateLimited limiter_3_60) (RateLimited limiter_3_60) empty_registry _)))
           (Some "btn_") true).
  reflexivity.
Defined.

(** * A burst of calls *)

Lemma prune_all_fresh ws now (h : list Z) :
  Forall (fun t => now - t <= ws) h -> prune ws now h = h.
Proof.
  unfold prune. induction h as [|t h IH]; intros Hall; [done|].
  apply Forall_cons in Hall as [Ht Hall].
  rewrite filter_cons_True by done. f_equal. by apply IH.
Qed.

Lemma cache_get_None k (cache : list (CacheKey * PyValue)) :
  cache_get k cache = None <-> forall v, (k, v) ∉ cache.
Proof.
  induction cache as [|[k' v'] rest IH]; simpl.
  - split; [|done]. intros _ v Hin. by apply elem_of_nil in Hin.
  - case_decide as Hk.
    + split; [done|]. intros Hno. exfalso. apply (Hno v'). subst k'. apply list_elem_of_here.
    + rewrite IH. split.
      * intros Hno v [Heq|Hin]%elem_of_cons; [congruence|by apply (Hno v)].
      * intros Hno v Hin. apply (Hno v). by apply list_elem_of_further.
Qed.

Lemma burst_run (L : Limiter) (user_id t0 : Z) ds : forall st,
  history st.2 user_id = admitted_times user_id (trace st.2) ->
  Forall (fun t => t0 <= t) (history st.2 user_id) ->
  Z.of_nat (length (history st.2 user_id)) <= messages_per_window L ->
  Forall (fun d => effective_user (d_update d) = Some user_id /\
                   t0 <= d_time d <= t0 + window_seconds L) ds ->
  NoDup (map (fun d => make_key (d_update d) (d_context d)) ds) ->
  Forall (fun d => cache_get (make_key (d_update d) (d_context d)) st.1 = None) ds ->
  history (run L ds st).2 user_id = admitted_times user_id (trace (run L ds st).2) /\
  length (history (run L ds st).2 user_id)
  = ((length (history st.2 user_id) + length ds) `min` Z.to_nat (messages_per_window L))%nat.
Proof.
  induction ds as [|d ds IH]; intros st Heq Hfresh Hlen Hds Hnodup Hmiss.
  - simpl. split; [done|]. lia.
  - apply Forall_cons in Hds as [[Hu Ht] Hds].
    apply NoDup_cons in Hnodup as [Hnotin Hnodup].
    apply Forall_cons in Hmiss as [Hmiss_d Hmiss].
    assert (Hkeep : prune (window_seconds L) (d_time d) (history st.2 user_id)
                    = history st.2 user_id).
    { apply prune_all_fresh. eapply Forall_impl; [exact Hfresh|]. simpl. intros t Hle. lia. }
    assert (Hmiss' : Forall (fun d' => cache_get (make_key (d_update d') (d_context d'))
                                         (step L st d).1 = None) ds).
    { apply Forall_forall. intros d' Hd'. apply cache_get_None. intros v Hin.
      unfold step in Hin. apply cache_keys_wrapper in Hin as [Hk|Hin].
      - apply Hnotin. rewrite <- Hk.
        apply (list_elem_of_fmap_2 (fun d => make_key (d_update d) (d_context d))). exact Hd'.
      - revert Hin. apply cache_get_None. revert d' Hd'. by apply Forall_forall. }
    simpl. unfold step in *. unfold wrapper in *. rewrite Hmiss_d in *.
    destruct (decide (messages_per_window L <= Z.of_nat (length (history st.2 user_id))))
      as [Hfull|Hroom].
    + rewrite (wrapper_body_denied L _ _ _ _ user_id Hu) in * by (by rewrite Hkeep).
      cbn [fst snd] in *. rewrite Hkeep in *.
      set (w1 := {| message_history := <[user_id := history st.2 user_id]>
                                         (message_history st.2);
                    trace := trace st.2 ++ [LogDebug user_id (messages_per_window L)
                                              (window_seconds L)
                                              (handler_name (func L))] |}) in *.
      assert (Hh1 : history w1 user_id = history st.2 user_id).
      { unfold w1. apply history_insert. }
      assert (Ha1 : admitted_times user_id (trace w1) = admitted_times user_id (trace st.2)).
      { unfold w1. cbn [trace]. apply admitted_times_log. }
      destruct (IH (cache_put (make_key (d_update d) (d_context d)) PyNone st.1, w1))
        as [IHeq IHlen]; cbn [fst snd].
      * by rewrite Hh1, Ha1.
      * by rewrite Hh1.
      * by rewrite Hh1.
      * done.
      * done.
      * done.
      * cbn [fst snd] in IHlen. split; [done|]. rewrite IHlen, Hh1. lia.
    + rewrite (wrapper_body_admitted L _ _ _ _ user_id Hu) in * by (rewrite Hkeep; lia).
      rewrite Hkeep in *.
      set (w1 := {| message_history := <[user_id := history st.2 user_id ++ [d_time d]]>
                                         (message_history st.2);
                    trace := trace st.2 ++ [Called (handler_name (func L)) (d_update d)
                                              (d_context d) (d_time d)] |}) in *.
      assert (Hh1 : history w1 user_id = history st.2 user_id ++ [d_time d]).
      { unfold w1. apply history_insert. }
      assert (Ha1 : admitted_times user_id (trace w1)
                    = admitted_times user_id (trace st.2) ++ [d_time d]).
      { unfold w1. cbn [trace]. by apply admitted_times_called. }
      assert (Hgoal : forall cache,
                Forall (fun d' => cache_get (make_key (d_update d') (d_context d')) cache
                                  = None) ds ->
                history (run L ds (cache, w1)).2 user_id
                  = admitted_times user_id (trace (run L ds (cache, w1)).2) /\
                length (history (run L ds (cache, w1)).2 user_id)
                = ((length (history st.2 user_id) + S (length ds))
                     `min` Z.to_nat (messages_per_window L))%nat).
      { intros cache Hc.
        destruct (IH (cache, w1)) as [IHeq IHlen]; cbn [fst snd]; try done.
        - by rewrite Hh1, Ha1, Heq.
        - rewrite Hh1. apply Forall_app. split; [done|]. constructor; [lia|done].
        - rewrite Hh1, length_app. simpl. lia.
        - cbn [fst snd] in IHlen. split; [done|].
          rewrite IHlen, Hh1, length_app. simpl. lia. }
      destruct (handler_raises (func L) (d_update d) (d_context d));
        cbn [fst snd] in *; by apply Hgoal.
Qed.

(** X14. A burst is served up to the capacity, no less: when [N] distinct
    updates of one user are dispatched to a fresh limiter at clock readings
    that all lie within one window length, exactly the smaller of [N] and
    [messages_per_window] of them are admitted, and the stored history is
    the list of their timestamps. *)
Theorem burst_admits_exactly_capacity (L : Limiter) (ds : list Dispatch) (user_id t0 : Z) :
  0 <= messages_per_window L ->
  Forall (fun d => effective_user (d_update d) = Some user_id /\
                   t0 <= d_time d <= t0 + window_seconds L) ds ->
  NoDup (map (fun d => make_key (d_update d) (d_context d)) ds) ->
  length (admitted_times user_id (trace (run L ds initial_state).2))
    = (length ds `min` Z.to_nat (messages_per_window L))%nat /\
  history (run L ds initial_state).2 user_id
    = admitted_times user_id (trace (run L ds initial_state).2).
Proof.
  intros Hcap Hds Hnodup.
  destruct (burst_run L user_id t0 ds initial_state) as [Heq Hlen]; try done.
  - apply Forall_forall. by intros d _.
  - split; [|done]. rewrite <- Heq, Hlen. done.
Qed.

Lemma burst_admits_exactly_capacity_witness :
  length (admitted_times 7
            (trace (run limiter_3_60 [at_ 1 7 5; at_ 2 7 5; at_ 3 7 5; at_ 4 7 5; at_ 5 7 5]
                      initial_state).2))
  = (length [at_ 1 7 5; at_ 2 7 5; at_ 3 7 5; at_ 4 7 5; at_ 5 7 5]
       `min` Z.to_nat (messages_per_window limiter_3_60))%nat.
Proof.
  refine (proj1 (burst_admits_exactly_capacity limiter_3_60
                   [at_ 1 7 5; at_ 2 7 5; at_ 3 7 5; at_ 4 7 5; at_ 5 7 5] 7 5 _ _ _)).
  - simpl. lia.
  - repeat constructor; simpl; lia.
  - apply (bool_decide_unpack _). vm_compute. exact I.
Defined.

(** * Several decorated functions on the one history *)

Lemma step_shared_world fs st call :
  (step_shared fs st call).2 = st.2
  \/ (step_shared fs st call).2
     = (wrapper_body (fs call.1) (d_update call.2) (d_context call.2) (d_time call.2) st.2).2.
Proof.
  unfold step_shared. cbn [snd].
  destruct (wrapper_world (fs call.1) (d_update call.2) (d_context call.2) (d_time call.2)
              (default [] (st.1 !! call.1), st.2)) as [H|H]; [left|right]; exact H.
Qed.

(** A function whose window is at least [ws] prunes nothing that lies in a
    window of length [ws]. *)
Lemma tracks_body_wider ws (L : Limiter) T now u c w :
  ws <= window_seconds L ->
  tracks ws T w -> T <= now -> tracks ws now (wrapper_body L u c now w).2.
Proof.
  intros Hws Hw Hle.
  destruct (effective_user u) as [uid|] eqn:Hu.
  2:{ rewrite wrapper_body_no_user by done. intros user_id b Hb. apply Hw. lia. }
  pose proof (Hw uid) as Huid.
  destruct (decide (messages_per_window L
      <= Z.of_nat (length (prune (window_seconds L) now (history w uid))))) as [Hfull|Hroom].
  - rewrite (wrapper_body_denied L u c now w uid Hu Hfull). cbn [snd].
    intros user_id b Hb. cbn [trace]. rewrite admitted_times_log.
    destruct (decide (uid = user_id)) as [<-|Hne].
    + rewrite history_insert, prune_as_lower_bound.
      rewrite list_filter_filter_l by (intros x; lia). apply Huid. lia.
    + rewrite history_insert_ne by done. apply Hw. lia.
  - rewrite (wrapper_body_admitted L u c now w uid Hu) by lia. cbn [snd].
    intros user_id b Hb. cbn [trace].
    destruct (decide (uid = user_id)) as [<-|Hne].
    + rewrite history_insert, admitted_times_called by done.
      rewrite !filter_app. f_equal. rewrite prune_as_lower_bound.
      rewrite list_filter_filter_l by (intros x; lia). apply Huid. lia.
    + rewrite history_insert_ne by done.
      rewrite admitted_times_called_other by congruence. apply Hw. lia.
Qed.

Lemma bounded_body_wider ws cap (L : Limiter) T now u c w :
  ws <= window_seconds L -> messages_per_window L <= cap ->
  tracks ws T w -> T <= now -> bounded ws cap w ->
  bounded ws cap (wrapper_body L u c now w).2.
Proof.
  intros Hws Hcap Hw Hle Hb.
  destruct (effective_user u) as [uid|] eqn:Hu.
  2:{ by rewrite wrapper_body_no_user. }
  destruct (decide (messages_per_window L
      <= Z.of_nat (length (prune (window_seconds L) now (history w uid))))) as [Hfull|Hroom].
  - rewrite (wrapper_body_denied L u c now w uid Hu Hfull). cbn [snd].
    intros user_id t. cbn [trace]. rewrite admitted_times_log. apply Hb.
  - rewrite (wrapper_body_admitted L u c now w uid Hu) by lia. cbn [snd].
    intros user_id t. cbn [trace].
    destruct (decide (uid = user_id)) as [<-|Hne].
    2:{ rewrite admitted_times_called_other by congruence. apply Hb. }
    rewrite admitted_times_called by done. rewrite count_in_window_app.
    destruct (decide (t - ws < now /\ now <= t)) as [Hin|Hout].
    + pose proof (count_in_window_le_recent ws t now (admitted_times uid (trace w))
                    ltac:(lia)) as Hcnt.
      rewrite (Hw uid (now - ws)) in Hcnt by lia.
      assert (Hsub : Z.of_nat (length (filter (fun s => now - ws <= s) (history w uid)))
                     <= Z.of_nat (length (prune (window_seconds L) now (history w uid)))).
      { rewrite prune_as_lower_bound.
        rewrite <- (list_filter_filter_l (fun s => now - ws <= s)
                      (fun s => now - window_seconds L <= s)) by (intros x; lia).
        apply inj_le, length_filter. }
      rewrite count_in_window_singleton, decide_True by done. lia.
    + rewrite count_in_window_singleton, decide_False by done.
      pose proof (Hb uid t). lia.
Qed.

Lemma within_capacity_body_larger cap (L : Limiter) u c now w :
  messages_per_window L <= cap ->
  within_capacity cap w -> within_capacity cap (wrapper_body L u c now w).2.
Proof.
  intros Hcap Hw.
  destruct (effective_user u) as [uid|] eqn:Hu.
  2:{ by rewrite wrapper_body_no_user. }
  pose proof (length_filter (fun t => now - t <= window_seconds L) (history w uid)) as Hlen.
  fold (prune (window_seconds L) now (history w uid)) in Hlen.
  destruct (decide (messages_per_window L
      <= Z.of_nat (length (prune (window_seconds L) now (history w uid))))) as [Hfull|Hroom].
  - rewrite (wrapper_body_denied L u c now w uid Hu Hfull). cbn [snd].
    intros user_id. destruct (decide (uid = user_id)) as [<-|Hne].
    + rewrite history_insert. destruct (Hw uid) as [Hnil|Hle].
      * left. by rewrite Hnil.
      * right. lia.
    + rewrite history_insert_ne by done. apply Hw.
  - rewrite (wrapper_body_admitted L u c now w uid Hu) by lia. cbn [snd].
    intros user_id. destruct (decide (uid = user_id)) as [<-|Hne].
    + rewrite history_insert. right. rewrite length_app. simpl. lia.
    + rewrite history_insert_ne by done. apply Hw.
Qed.

Lemma run_shared_tracks fs ws calls : forall st T now,
  Forall (fun call : nat * Dispatch => ws <= window_seconds (fs call.1)) calls ->
  tracks ws T st.2 ->
  nondecreasing (T :: map (fun call : nat * Dispatch => d_time call.2) calls ++ [now]) ->
  tracks ws now (run_shared fs calls st).2.
Proof.
  induction calls as [|call calls IH]; intros st T now Hfs Hw Hs; simpl in *.
  - apply Sorted_inv in Hs as [_ Hhd]. apply HdRel_inv in Hhd.
    intros user_id b Hb. apply Hw. lia.
  - apply Forall_cons in Hfs as [Hcall Hfs].
    apply Sorted_inv in Hs as [Hs Hhd]. apply HdRel_inv in Hhd.
    eapply (IH _ (d_time call.2)); [done| |done].
    destruct (step_shared_world fs st call) as [-> | ->].
    + intros user_id b Hb. apply Hw. lia.
    + by eapply tracks_body_wider.
Qed.

Lemma run_shared_bounded fs ws cap calls : forall st T,
  Forall (fun call : nat * Dispatch =>
            ws <= window_seconds (fs call.1) /\ messages_per_window (fs call.1) <= cap)
    calls ->
  tracks ws T st.2 -> bounded ws cap st.2 ->
  nondecreasing (T :: map (fun call : nat * Dispatch => d_time call.2) calls) ->
  bounded ws cap (run_shared fs calls st).2.
Proof.
  induction calls as [|call calls IH]; intros st T Hfs Hw Hb Hs; simpl in *; [done|].
  apply Forall_cons in Hfs as [[Hws Hcap] Hfs].
  apply Sorted_inv in Hs as [Hs Hhd]. apply HdRel_inv in Hhd.
  eapply (IH _ (d_time call.2)); [done| | |done].
  - destruct (step_shared_world fs st call) as [-> | ->].
    + intros user_id b Hb'. apply Hw. lia.
    + by eapply tracks_body_wider.
  - destruct (step_shared_world fs st call) as [-> | ->]; [done|].
    by eapply bounded_body_wider.
Qed.

Lemma run_shared_within_capacity fs cap calls : forall st,
  Forall (fun call : nat * Dispatch => messages_per_window (fs call.1) <= cap) calls ->
  within_capacity cap st.2 ->
  within_capacity cap (run_shared fs calls st).2.
Proof.
  induction calls as [|call calls IH]; intros st Hfs Hw; simpl; [done|].
  apply Forall_cons in Hfs as [Hcap Hfs]. apply IH; [done|].
  destruct (step_shared_world fs st call) as [-> | ->]; [done|].
  by apply within_capacity_body_larger.
Qed.

Lemma run_shared_caches_none fs calls : forall st,
  map_Forall (fun _ cache => cache_values_none cache) st.1 ->
  map_Forall (fun _ cache => cache_values_none cache) (run_shared fs calls st).1.
Proof.
  induction calls as [|call calls IH]; intros st Hc; simpl; [done|].
  apply IH. unfold step_shared. cbn [fst].
  apply map_Forall_insert_2; [|done].
  apply (cache_values_none_wrapper (fs call.1) _ _ _ (default [] (st.1 !! call.1), st.2)).
  cbn [fst]. destruct (st.1 !! call.1) as [cache|] eqn:Hl; simpl.
  - by apply (Hc call.1).
  - constructor.
Qed.

(** ** The sliding-window bound *)

(** C1, as stated, fails: [message_history] is shared by every decorated
    function. [my_function] is limited to 3 per 60 seconds; it is called
    for user 7 at 0, 1, 2, then [other_function] (1 per 10 seconds) at 20,
    whose prune empties the list, then [my_function] again at 21. The clock
    readings do not decrease, and [my_function] has been run four times in
    the window (-39, 21]. *)
Lemma shared_history_breaks_window_bound :
  nondecreasing (map (fun call : nat * Dispatch => d_time call.2) two_functions_calls) /\
  called_times "my_function" 7
    (trace (run_shared two_functions two_functions_calls initial_shared).2) = [0; 1; 2; 21] /\
  count_in_window (window_seconds (two_functions 0)) 21
    (called_times "my_function" 7
       (trace (run_shared two_functions two_functions_calls initial_shared).2)) = 4 /\
  4 > messages_per_window (two_functions 0).
Proof.
  split; [|split; [|split]].
  - simpl. repeat constructor; lia.
  - vm_compute. reflexivity.
  - vm_compute. reflexivity.
  - simpl. lia.
Qed.

(** C1, amended. Let the decorated functions that are called all have a
    window of at least [ws] and a capacity of at most [cap], with [cap] not
    negative; in particular let there be one decorated function, with
    window [ws] and capacity [cap]. Then for every identity and every time
    [t], the admitted actions of that identity (through whichever function)
    whose timestamps lie in the trailing window [(t - ws, t]] never number
    more than [cap], after any sequence of calls whose clock readings do not
    decrease, started in the state of a fresh process. *)
Theorem admissions_in_window_le_capacity (fs : nat -> Limiter)
    (calls : list (nat * Dispatch)) (ws cap user_id t : Z) :
  0 <= cap ->
  Forall (fun call : nat * Dispatch =>
            ws <= window_seconds (fs call.1) /\ messages_per_window (fs call.1) <= cap)
    calls ->
  nondecreasing (map (fun call : nat * Dispatch => d_time call.2) calls) ->
  count_in_window ws t (admitted_times user_id (trace (run_shared fs calls initial_shared).2))
  <= cap.
Proof.
  intros Hcap Hfs Hs.
  apply (run_shared_bounded fs ws cap calls initial_shared
           (hd 0 (map (fun call : nat * Dispatch => d_time call.2) calls))); [done| | |].
  - intros user_id' b _. done.
  - intros user_id' t'. unfold count_in_window. simpl. lia.
  - by apply nondecreasing_from_head.
Qed.

Lemma admissions_in_window_le_capacity_witness :
  count_in_window 60 61
    (admitted_times 7
       (trace (run_shared (fun _ => limiter_3_60)
                 [(0%nat, at_ 1 7 0); (0%nat, at_ 2 7 1); (0%nat, at_ 3 7 2);
                  (0%nat, at_ 4 7 3); (0%nat, at_ 5 7 61)] initial_shared).2))
  <= 3.
Proof.
  apply (admissions_in_window_le_capacity (fun _ => limiter_3_60)
           [(0%nat, at_ 1 7 0); (0%nat, at_ 2 7 1); (0%nat, at_ 3 7 2);
            (0%nat, at_ 4 7 3); (0%nat, at_ 5 7 61)] 60 3 7 61).
  - lia.
  - repeat constructor; simpl; lia.
  - simpl. repeat constructor; lia.
Defined.

(** X2. However many decorated functions share the history and whatever
    the clock does, the list stored for a user never holds more timestamps
    than the largest capacity among the functions that were called (none
    when that is negative). *)
Theorem stored_history_at_most_largest_capacity (fs : nat -> Limiter)
    (calls : list (nat * Dispatch)) (cap user_id : Z) :
  Forall (fun call : nat * Dispatch => messages_per_window (fs call.1) <= cap) calls ->
  Z.of_nat (length (history (run_shared fs calls initial_shared).2 user_id)) <= Z.max 0 cap.
Proof.
  intros Hfs.
  assert (Hcap : within_capacity cap (run_shared fs calls initial_shared).2).
  { apply run_shared_within_capacity; [done|]. intros uid. by left. }
  destruct (Hcap user_id) as [-> | Hle]; simpl; lia.
Qed.

Lemma stored_history_at_most_largest_capacity_witness :
  Z.of_nat (length (history (run_shared two_functions two_functions_calls initial_shared).2 7))
  <= Z.max 0 3.
Proof.
  apply (stored_history_at_most_largest_capacity two_functions two_functions_calls 3 7).
  repeat constructor; simpl; lia.
Defined.

(** ** Admission up to the capacity, on the shared history *)

(** C4, amended. The wrapper returns [None] whenever it returns, on an
    admission as on a denial; the decision shows in its effects only. Let
    every decorated function called so far have a window at least as long
    as that of function [i] (in particular, let [i] be the only one). Once
    [messages_per_window] admitted calls of an identity, exactly that many
    or more, lie within one window of function [i], the next call of that
    identity to function [i] within the same window is not admitted: it
    returns [None], no decorated function is called and the clock reading
    is not recorded (the stored history is left as it was, or pruned). *)
Theorem full_window_denies_next_call (fs : nat -> Limiter) (calls : list (nat * Dispatch))
    (i : nat) (d : Dispatch) (user_id : Z) :
  nondecreasing (map (fun call : nat * Dispatch => d_time call.2) (calls ++ [(i, d)])) ->
  Forall (fun call : nat * Dispatch => window_seconds (fs i) <= window_seconds (fs call.1))
    calls ->
  effective_user (d_update d) = Some user_id ->
  messages_per_window (fs i)
  <= count_in_window (window_seconds (fs i)) (d_time d)
       (admitted_times user_id (trace (run_shared fs calls initial_shared).2)) ->
  (forall L u c now w v, (wrapper_body L u c now w).1 = Return v -> v = PyNone) /\
  (wrapper (fs i) (d_update d) (d_context d) (d_time d)
     (default [] ((run_shared fs calls initial_shared).1 !! i),
      (run_shared fs calls initial_shared).2)).1 = Return PyNone /\
  (forall uid,
     admitted_times uid (trace (run_shared fs (calls ++ [(i, d)]) initial_shared).2)
     = admitted_times uid (trace (run_shared fs calls initial_shared).2)) /\
  (history (run_shared fs (calls ++ [(i, d)]) initial_shared).2 user_id
     = history (run_shared fs calls initial_shared).2 user_id
   \/ history (run_shared fs (calls ++ [(i, d)]) initial_shared).2 user_id
     = prune (window_seconds (fs i)) (d_time d)
         (history (run_shared fs calls initial_shared).2 user_id)).
Proof.
  intros Hs Hfs Hu Hcount.
  split; [apply wrapper_body_returns_none|].
  assert (Hrun : run_shared fs (calls ++ [(i, d)]) initial_shared
                 = step_shared fs (run_shared fs calls initial_shared) (i, d)).
  { unfold run_shared. apply foldl_snoc. }
  rewrite Hrun. clear Hrun.
  set (st := run_shared fs calls initial_shared) in *.
  assert (Hfull : messages_per_window (fs i)
      <= Z.of_nat (length (prune (window_seconds (fs i)) (d_time d) (history st.2 user_id)))).
  { rewrite map_app in Hs. cbn [map snd] in Hs. apply nondecreasing_from_head in Hs.
    pose proof (run_shared_tracks fs (window_seconds (fs i)) calls initial_shared _ _ Hfs
                  (tracks_initial (fs i) _) Hs) as Ht.
    fold st in Ht. rewrite prune_as_lower_bound, <- (Ht user_id) by lia.
    etrans; [exact Hcount|]. apply count_in_window_le_recent. lia. }
  assert (Hc : cache_values_none (default [] (st.1 !! i))).
  { assert (Hall : map_Forall (fun _ cache => cache_values_none cache) st.1).
    { apply run_shared_caches_none. apply map_Forall_empty. }
    destruct (st.1 !! i) as [cache|] eqn:Hl; simpl; [by apply (Hall i)|constructor]. }
  unfold step_shared, wrapper. cbn [fst snd].
  destruct (cache_get _ _) as [v|] eqn:Hget; cbn [fst snd].
  - split; [f_equal; by eapply cache_get_values_none|]. split; [done|by left].
  - rewrite (wrapper_body_denied (fs i) _ _ _ _ user_id Hu Hfull). cbn [fst snd trace].
    split; [done|]. split; [intros uid; apply admitted_times_log|].
    right. by rewrite history_insert.
Qed.

Lemma full_window_denies_next_call_witness :
  (wrapper (two_functions 1) (upd 5 7) (ctx 5) 3
     (default [] ((run_shared two_functions
                     [(0%nat, at_ 1 7 0); (0%nat, at_ 2 7 1)] initial_shared).1 !! 1%nat),
      (run_shared two_functions
         [(0%nat, at_ 1 7 0); (0%nat, at_ 2 7 1)] initial_shared).2)).1 = Return PyNone /\
  admitted_times 7
    (trace (run_shared two_functions
              ([(0%nat, at_ 1 7 0); (0%nat, at_ 2 7 1)] ++ [(1%nat, at_ 5 7 3)])
              initial_shared).2)
  = admitted_times 7
      (trace (run_shared two_functions
                [(0%nat, at_ 1 7 0); (0%nat, at_ 2 7 1)] initial_shared).2).
Proof.
  pose proof (full_window_denies_next_call two_functions
                [(0%nat, at_ 1 7 0); (0%nat, at_ 2 7 1)] 1%nat (at_ 5 7 3) 7) as H.
  destruct H as (_ & Hret & Hadm & _).
  - simpl. repeat constructor; lia.
  - repeat constructor; simpl; lia.
  - reflexivity.
  - vm_compute. discriminate.
  - split; [exact Hret|exact (Hadm 7)].
Defined.

(** ** Re-admission, whoever wrote the history *)

(** C6, amended. Whatever state the shared history is in: when the list
    stored for an identity holds no more timestamps than the limiter's
    [messages_per_window] (as it does after a denial at capacity by this
    limiter) and one of them, [e], has aged strictly past the window at
    [now], that is [now > e + window_seconds], a call for that identity at
    [now] that the cache does not answer is admitted: the timestamp is
    appended and the decorated function is called. *)
Theorem readmitted_past_window_at_capacity (L : Limiter) (u : Update) (c : CallbackContext)
    (now : Z) (st : list (CacheKey * PyValue) * World) (user_id e : Z) :
  effective_user u = Some user_id ->
  e ∈ history st.2 user_id ->
  now > e + window_seconds L ->
  Z.of_nat (length (history st.2 user_id)) <= messages_per_window L ->
  cache_get (make_key u c) st.1 = None ->
  admitted_step L u c now st.2 (wrapper L u c now st).2.2.
Proof.
  intros Hu He Hnow Hlen Hmiss.
  assert (Hroom : Z.of_nat (length (prune (window_seconds L) now (history st.2 user_id)))
                  < messages_per_window L).
  { assert (Hold : ~ now - e <= window_seconds L) by lia.
    pose proof (length_filter_lt (fun t => now - t <= window_seconds L)
                  (history st.2 user_id) e He Hold) as Hlt.
    unfold prune. lia. }
  unfold wrapper. rewrite Hmiss.
  rewrite (wrapper_body_admitted L u c now st.2 user_id Hu Hroom).
  destruct (handler_raises _ _ _); cbn [fst snd];
    (exists user_id; cbn [message_history trace]; by rewrite lookup_insert_eq).
Qed.

Lemma readmitted_past_window_at_capacity_witness :
  admitted_step limiter_3_60 (upd 5 7) (ctx 5) 61
    (run limiter_3_60 [at_ 1 7 0; at_ 2 7 1; at_ 3 7 2; at_ 4 7 3] initial_state).2
    (wrapper limiter_3_60 (upd 5 7) (ctx 5) 61
       (run limiter_3_60 [at_ 1 7 0; at_ 2 7 1; at_ 3 7 2; at_ 4 7 3] initial_state)).2.2.
Proof.
  apply (readmitted_past_window_at_capacity limiter_3_60 (upd 5 7) (ctx 5) 61
           (run limiter_3_60 [at_ 1 7 0; at_ 2 7 1; at_ 3 7 2; at_ 4 7 3] initial_state) 7 0).
  - reflexivity.
  - vm_compute. apply list_elem_of_here.
  - simpl. lia.
  - vm_compute. discriminate.
  - vm_compute. reflexivity.
Defined.

(** * Calls whose steps interleave *)

(** The six steps of a call, run with nothing in between, are the body. *)
Lemma thread_steps_S n th w th' w' :
  thread_step th w = (th', w') -> thread_steps (S n) th w = thread_steps n th' w'.
Proof. intros H. cbn [thread_steps]. by rewrite H. Qed.

Lemma thread_step_finished th w : th_pc th = Finished -> thread_step th w = (th, w).
Proof.
  intros Hpc. unfold thread_step. rewrite Hpc.
  destruct (effective_user (th_update th)); [done|].
  destruct th as [L u c t pc]. simpl in *. by subst pc.
Qed.

Lemma thread_steps_finished n th w : th_pc th = Finished -> thread_steps n th w = (th, w).
Proof.
  intros Hpc. induction n as [|n IH]; [done|].
  by rewrite (thread_steps_S n th w th w) by (by apply thread_step_finished).
Qed.

Lemma thread_steps_body (L : Limiter) (d : Dispatch) (w : World) :
  thread_steps 6 (spawn L d) w
  = (at_pc (spawn L d) Finished,
     (wrapper_body L (d_update d) (d_context d) (d_time d) w).2).
Proof.
  destruct (effective_user (d_update d)) as [uid|] eqn:Hu.
  2:{ rewrite wrapper_body_no_user by done.
      rewrite (thread_steps_S 5 _ _ (at_pc (spawn L d) Finished) w).
      - by apply thread_steps_finished.
      - unfold thread_step. cbn [spawn th_update]. by rewrite Hu. }
  (* lines 35-36 *)
  rewrite (thread_steps_S 5 _ _ (at_pc (spawn L d) AtPrune)
             {| message_history := match message_history w !! uid with
                                   | None => <[uid := []]> (message_history w)
                                   | Some _ => message_history w
                                   end;
                trace := trace w |}).
  2:{ unfold thread_step. cbn [spawn th_update th_pc]. by rewrite Hu. }
  set (w0 := {| message_history := _; trace := trace w |}).
  assert (Hh0 : history w0 uid = history w uid).
  { unfold w0, history. cbn [message_history].
    destruct (message_history w !! uid) as [h|] eqn:Hh; [by rewrite Hh|].
    by rewrite lookup_insert_eq. }
  assert (Hm0 : forall l, <[uid := l]> (message_history w0) = <[uid := l]> (message_history w)).
  { intros l. unfold w0. cbn [message_history].
    destruct (message_history w !! uid); [done|]. by rewrite insert_insert_eq. }
  (* line 39, read *)
  rewrite (thread_steps_S 4 _ _
             (at_pc (spawn L d) (AtStore (prune (window_seconds L) (d_time d) (history w uid))))
             w0).
  2:{ unfold thread_step. cbn [at_pc spawn th_update th_pc th_limiter th_time].
      by rewrite Hu, Hh0. }
  (* line 39, store *)
  rewrite (thread_steps_S 3 _ _ (at_pc (spawn L d) AtCheck)
             {| message_history :=
                  <[uid := prune (window_seconds L) (d_time d) (history w uid)]>
                    (message_history w);
                trace := trace w |}).
  2:{ unfold thread_step. cbn [at_pc spawn th_update th_pc th_limiter th_time].
      by rewrite Hu, Hm0. }
  destruct (decide (messages_per_window L
      <= Z.of_nat (length (prune (window_seconds L) (d_time d) (history w uid)))))
    as [Hfull|Hroom].
  - (* line 41, denied *)
    rewrite (wrapper_body_denied L _ _ _ _ uid Hu Hfull). cbn [snd].
    rewrite (thread_steps_S 2 _ _ (at_pc (spawn L d) Finished)
               {| message_history :=
                    <[uid := prune (window_seconds L) (d_time d) (history w uid)]>
                      (message_history w);
                  trace := trace w ++ [LogDebug uid (messages_per_window L)
                                         (window_seconds L) (handler_name (func L))] |}).
    + by apply thread_steps_finished.
    + unfold thread_step. cbn [at_pc spawn th_update th_pc th_limiter th_time].
      rewrite Hu, history_insert. by rewrite bool_decide_eq_true_2 by lia.
  - (* line 41, room; lines 45 and 46 *)
    rewrite (wrapper_body_admitted L _ _ _ _ uid Hu) by lia.
    rewrite (thread_steps_S 2 _ _ (at_pc (spawn L d) AtAppend)
               {| message_history :=
                    <[uid := prune (window_seconds L) (d_time d) (history w uid)]>
                      (message_history w);
                  trace := trace w |}).
    2:{ unfold thread_step. cbn [at_pc spawn th_update th_pc th_limiter th_time].
        rewrite Hu, history_insert. by rewrite bool_decide_eq_false_2 by lia. }
    rewrite (thread_steps_S 1 _ _ (at_pc (spawn L d) AtCall)
               {| message_history :=
                    <[uid := prune (window_seconds L) (d_time d) (history w uid)
                               ++ [d_time d]]> (message_history w);
                  trace := trace w |}).
    2:{ unfold thread_step. cbn [at_pc spawn th_update th_pc th_limiter th_time].
        rewrite Hu, history_insert. cbn [message_history trace].
        by rewrite insert_insert_eq. }
    rewrite (thread_steps_S 0 _ _ (at_pc (spawn L d) Finished)
               {| message_history :=
                    <[uid := prune (window_seconds L) (d_time d) (history w uid)
                               ++ [d_time d]]> (message_history w);
                  trace := trace w ++ [Called (handler_name (func L)) (d_update d)
                                         (d_context d) (d_time d)] |}).
    2:{ unfold thread_step. cbn [at_pc spawn th_update th_pc th_limiter th_time th_context].
        by rewrite Hu. }
    cbn [thread_steps]. by destruct (handler_raises _ _ _).
Qed.

Lemma run_schedule_replicate n : forall i th ths w,
  ths !! i = Some th ->
  run_schedule (replicate n i) (ths, w)
  = (<[i := (thread_steps n th w).1]> ths, (thread_steps n th w).2).
Proof.
  induction n as [|n IH]; intros i th ths w Hth.
  - simpl. by rewrite list_insert_id.
  - destruct (thread_step th w) as [th1 w1] eqn:Hstep.
    assert (Hs : sched_step (ths, w) i = (<[i := th1]> ths, w1)).
    { unfold sched_step. cbn [fst snd]. by rewrite Hth, Hstep. }
    change (run_schedule (replicate (S n) i) (ths, w))
      with (run_schedule (replicate n i) (sched_step (ths, w) i)).
    rewrite Hs, (IH i th1).
    + rewrite list_insert_insert_eq. by rewrite (thread_steps_S n th w th1 w1 Hstep).
    + apply list_lookup_insert_eq. by eapply lookup_lt_Some.
Qed.

Lemma run_serial (L : Limiter) (rest : list Dispatch) : forall before w,
  run_schedule (serial (length before) (length rest)) (before ++ map (spawn L) rest, w)
  = (before ++ map (fun d => at_pc (spawn L d) Finished) rest, run_bodies L rest w).
Proof.
  induction rest as [|d rest IH]; intros before w; [done|].
  unfold serial. cbn [length seq flat_map map]. unfold run_schedule. rewrite foldl_app.
  fold (run_schedule (replicate 6 (length before))
          (before ++ spawn L d :: map (spawn L) rest, w)).
  rewrite (run_schedule_replicate 6 (length before) (spawn L d))
    by (by apply list_lookup_middle).
  rewrite thread_steps_body. cbn [fst snd].
  replace (length before) with (length before + 0)%nat at 1 by lia.
  rewrite insert_app_r. cbn [insert list_insert].
  fold (serial (S (length before)) (length rest)).
  fold (run_schedule (serial (S (length before)) (length rest))
          (before ++ at_pc (spawn L d) Finished :: map (spawn L) rest,
           (wrapper_body L (d_update d) (d_context d) (d_time d) w).2)).
  replace (before ++ at_pc (spawn L d) Finished :: map (spawn L) rest)
    with ((before ++ [at_pc (spawn L d) Finished]) ++ map (spawn L) rest)
    by (by rewrite <- app_assoc).
  replace (S (length before)) with (length (before ++ [at_pc (spawn L d) Finished]))
    by (rewrite length_app; simpl; lia).
  rewrite IH. by rewrite <- app_assoc.
Qed.

Lemma burst_bodies (L : Limiter) (user_id t0 : Z) ds : forall w,
  history w user_id = admitted_times user_id (trace w) ->
  Forall (fun t => t0 <= t) (history w user_id) ->
  Z.of_nat (length (history w user_id)) <= messages_per_window L ->
  Forall (fun d => effective_user (d_update d) = Some user_id /\
                   t0 <= d_time d <= t0 + window_seconds L) ds ->
  history (run_bodies L ds w) user_id
    = admitted_times user_id (trace (run_bodies L ds w)) /\
  length (history (run_bodies L ds w) user_id)
  = ((length (history w user_id) + length ds) `min` Z.to_nat (messages_per_window L))%nat.
Proof.
  induction ds as [|d ds IH]; intros w Heq Hfresh Hlen Hds.
  - simpl. split; [done|]. lia.
  - apply Forall_cons in Hds as [[Hu Ht] Hds].
    assert (Hkeep : prune (window_seconds L) (d_time d) (history w user_id)
                    = history w user_id).
    { apply prune_all_fresh. eapply Forall_impl; [exact Hfresh|]. simpl. intros t Hle. lia. }
    unfold run_bodies. cbn [foldl].
    fold (run_bodies L ds (wrapper_body L (d_update d) (d_context d) (d_time d) w).2).
    destruct (decide (messages_per_window L <= Z.of_nat (length (history w user_id))))
      as [Hfull|Hroom].
    + rewrite (wrapper_body_denied L _ _ _ _ user_id Hu) by (by rewrite Hkeep).
      cbn [snd]. rewrite Hkeep.
      destruct (IH {| message_history := <[user_id := history w user_id]> (message_history w);
                      trace := trace w ++ [LogDebug user_id (messages_per_window L)
                                             (window_seconds L) (handler_name (func L))] |})
        as [IHeq IHlen].
      * cbn [trace]. by rewrite history_insert, admitted_times_log.
      * by rewrite history_insert.
      * by rewrite history_insert.
      * done.
      * split; [done|]. rewrite IHlen, history_insert. simpl. lia.
    + rewrite (wrapper_body_admitted L _ _ _ _ user_id Hu) by (rewrite Hkeep; lia).
      rewrite Hkeep.
      cbn [snd].
      destruct (IH {| message_history := <[user_id := history w user_id ++ [d_time d]]>
                                           (message_history w);
                      trace := trace w ++ [Called (handler_name (func L)) (d_update d)
                                             (d_context d) (d_time d)] |})
        as [IHeq IHlen].
      * cbn [trace]. rewrite history_insert, admitted_times_called by done. by rewrite Heq.
      * rewrite history_insert. apply Forall_app. split; [done|]. constructor; [lia|done].
      * rewrite history_insert, length_app. simpl. lia.
      * done.
      * split; [done|]. rewrite IHlen, history_insert, length_app. simpl. lia.
Qed.

(** C10, as stated, fails: nothing keeps the steps of two calls apart.
    Capacity 1, two calls for user 7 at the same time 5, no history: the
    first call passes its check (line 41), then the second runs as far as
    its check and passes it too, since nothing has been appended yet; both
    append and both call the decorated function. Two are admitted. *)
Lemma interleaved_calls_exceed_capacity :
  Forall (fun th => th_pc th = Finished)
    (run_schedule [0; 0; 0; 0; 1; 1; 1; 1; 0; 0; 1; 1]%nat
       ([spawn limiter_1_60 (at_ 1 7 5); spawn limiter_1_60 (at_ 2 7 5)],
        initial_world)).1 /\
  admitted_times 7
    (trace (run_schedule [0; 0; 0; 0; 1; 1; 1; 1; 0; 0; 1; 1]%nat
              ([spawn limiter_1_60 (at_ 1 7 5); spawn limiter_1_60 (at_ 2 7 5)],
               initial_world)).2) = [5; 5] /\
  history
    (run_schedule [0; 0; 0; 0; 1; 1; 1; 1; 0; 0; 1; 1]%nat
       ([spawn limiter_1_60 (at_ 1 7 5); spawn limiter_1_60 (at_ 2 7 5)],
        initial_world)).2 7 = [5; 5] /\
  2 > messages_per_window limiter_1_60.
Proof.
  split; [|split; [|split]].
  - vm_compute. repeat constructor.
  - vm_compute. reflexivity.
  - vm_compute. reflexivity.
  - simpl. lia.
Qed.

(** C10, amended. The body takes no lock, and what holds is this: when [N]
    calls for the same identity run one after another, no step of one call
    falling between the steps of another, at clock readings that all lie
    within one window length (in particular all at the same time, the
    window not being negative), on a fresh history and with a capacity that
    is not negative, then every call comes to its end and exactly the
    smaller of [N] and [messages_per_window] of them are admitted: at most
    the capacity, and at least min(N, capacity). *)
Theorem serial_calls_admit_up_to_capacity (L : Limiter) (ds : list Dispatch)
    (user_id t0 : Z) :
  0 <= messages_per_window L ->
  Forall (fun d => effective_user (d_update d) = Some user_id /\
                   t0 <= d_time d <= t0 + window_seconds L) ds ->
  Forall (fun th => th_pc th = Finished)
    (run_schedule (serial 0 (length ds)) (map (spawn L) ds, initial_world)).1 /\
  length (admitted_times user_id
            (trace (run_schedule (serial 0 (length ds))
                      (map (spawn L) ds, initial_world)).2))
    = (length ds `min` Z.to_nat (messages_per_window L))%nat /\
  Z.of_nat (length (admitted_times user_id
                      (trace (run_schedule (serial 0 (length ds))
                                (map (spawn L) ds, initial_world)).2)))
    <= messages_per_window L /\
  history (run_schedule (serial 0 (length ds)) (map (spawn L) ds, initial_world)).2 user_id
    = admitted_times user_id
        (trace (run_schedule (serial 0 (length ds)) (map (spawn L) ds, initial_world)).2).
Proof.
  intros Hcap Hds.
  pose proof (run_serial L ds [] initial_world) as Hrun.
  cbn [length app] in Hrun. rewrite Hrun. cbn [fst snd].
  destruct (burst_bodies L user_id t0 ds initial_world) as [Heq Hlen].
  { done. }
  { constructor. }
  { change (history initial_world user_id) with (@nil Z). simpl. lia. }
  { done. }
  split; [|split; [|split]].
  - apply Forall_forall. intros th Hth.
    apply list_elem_of_fmap in Hth as (d & -> & _). done.
  - rewrite <- Heq, Hlen. done.
  - rewrite <- Heq, Hlen. change (history initial_world user_id) with (@nil Z).
    simpl. lia.
  - done.
Qed.

Lemma serial_calls_admit_up_to_capacity_witness :
  length (admitted_times 7
            (trace (run_schedule (serial 0 (length [at_ 1 7 5; at_ 2 7 5]))
                      (map (spawn limiter_1_60) [at_ 1 7 5; at_ 2 7 5], initial_world)).2))
  = (length [at_ 1 7 5; at_ 2 7 5] `min` Z.to_nat (messages_per_window limiter_1_60))%nat.
Proof.
  refine (proj1 (proj2 (serial_calls_admit_up_to_capacity limiter_1_60
                          [at_ 1 7 5; at_ 2 7 5] 7 5 _ _))).
  - simpl. lia.
  - repeat constructor; simpl; lia.
Defined.
